(** * LG TV remote: a shallow embedding of [lg_tv_remote.py]

    The development follows the source file top-down: Python strings and
    the dictionaries the program reads, the device client it drives
    ([aiowebostv.WebOsClient], an external collaborator that is modelled by
    an oracle and a log of the requests awaited on it), the session class
    [LGTVRemote], and the front end [TVRemoteGUI] with its bridge
    [run_async], the launcher [launch_app_smart] and the configuration
    store. *)

From stdpp Require Import base option list strings pretty gmap.
From Stdlib Require Import Ascii.

(** ** Python strings

    A Python [str] is modelled by [string]; the characters the program can
    tell apart are the ASCII ones, the only ones [str.lower] and
    [str.strip] are modelled on. *)

Module PyStr.

(** [c.lower()] on one character: [A]..[Z] move to [a]..[z]. *)
Definition lower_char (c : ascii) : ascii :=
  let n := N_of_ascii c in
  if ((65 <=? n) && (n <=? 90))%N then ascii_of_N (n + 32) else c.

(** [s.lower()] *)
Fixpoint lower (s : string) : string :=
  match s with
  | EmptyString => EmptyString
  | String c s' => String (lower_char c) (lower s')
  end.

(** [s.startswith(p)], the test [contains] makes at every offset. *)
Fixpoint startswith (p s : string) : bool :=
  match p, s with
  | EmptyString, _ => true
  | String _ _, EmptyString => false
  | String a p', String b s' => if decide (a = b) then startswith p' s' else false
  end.

(** [needle in hay] on strings. *)
Fixpoint contains (needle hay : string) : bool :=
  startswith needle hay ||
  match hay with
  | EmptyString => false
  | String _ hay' => contains needle hay'
  end.

(** What [in] decides: [needle] occurs in [hay] as a contiguous block. *)
Definition substring_of (needle hay : string) : Prop :=
  ∃ pre post, hay = pre +:+ needle +:+ post.

(** [str.isspace] on an ASCII character. *)
Definition isspace (c : ascii) : bool :=
  let n := N_of_ascii c in
  (((9 <=? n) && (n <=? 13)) || ((28 <=? n) && (n <=? 32)))%N.

Fixpoint lstrip (s : string) : string :=
  match s with
  | EmptyString => EmptyString
  | String c s' => if isspace c then lstrip s' else s
  end.

(** [s.strip()] *)
Definition strip (s : string) : string :=
  String.rev (lstrip (String.rev (lstrip s))).

(** [s.replace(" ", "")] *)
Fixpoint remove_spaces (s : string) : string :=
  match s with
  | EmptyString => EmptyString
  | String c s' =>
      if decide (c = " "%char) then remove_spaces s' else String c (remove_spaces s')
  end.

(** Truth value of a string: [not s] holds of the empty string only. *)
Definition truthy (s : string) : bool :=
  match s with EmptyString => false | _ => true end.

End PyStr.

(** ** Data of the program *)

(** An entry of the list [client.get_apps()] returns: a Python dict, read
    by the program with [app.get('title', '')] and [app.get('id', '')]. *)
Abbreviation App := (gmap string string).

(** [d.get(k, dflt)] *)
Definition dict_get {V} (k : string) (dflt : V) (d : gmap string V) : V :=
  default dflt (d !! k).

(** The values coroutines hand back through [run_async]: [None], a
    boolean ([connect_to_tv]) or the list of apps ([get_apps]). *)
Inductive Value :=
| VNone
| VBool (b : bool)
| VApps (apps : list App).

(** Truth value of [v], as tested by [if success:] and [if apps:]. *)
Definition truthy (v : Value) : bool :=
  match v with
  | VNone => false
  | VBool b => b
  | VApps [] => false
  | VApps (_ :: _) => true
  end.

(** Exceptions (all of them subclasses of [Exception]). *)
Inductive Exn :=
| DeviceError (detail : string)  (* raised by a request awaited on the device client *)
| TimeoutError                   (* raised by [future.result(timeout=10)] *)
| AttributeError (msg : string)
| TypeError (msg : string).

(** [f"{e}"]: the message of the exception; [TimeoutError()] has none. *)
Definition exn_str (e : Exn) : string :=
  match e with
  | DeviceError detail => detail
  | TimeoutError => ""
  | AttributeError msg => msg
  | TypeError msg => msg
  end.

(** [WebOsClient(ip_address, client_key=client_key)] *)
Record Client := WebOsClient { host : string; given_key : option string }.

(** The requests the program awaits on a client. *)
Inductive Request :=
| ReqConnect
| ReqDisconnect
| ReqVolumeUp
| ReqVolumeDown
| ReqGetMuted
| ReqSetMute (muted : bool)
| ReqPowerOff
| ReqLaunchApp (app_id : string)
| ReqButton (name : string)
| ReqGetApps.

(** The coroutines of [LGTVRemote], as the values handed to [run_async]. *)
Inductive Command :=
| ConnectToTv (ip_address : string) (key : option string)
| Disconnect
| VolumeUp
| VolumeDown
| MuteToggle
| PowerOff
| LaunchApp (app_id : string)
| NavUp | NavDown | NavLeft | NavRight | NavOk | NavHome | NavBack
| MediaPlay | MediaPause | MediaStop | MediaRewind | MediaFastforward
| GetApps.

(** What the program does to the outside, in the order it does it. *)
Inductive Event :=
| Submitted (c : Command)               (* [asyncio.run_coroutine_threadsafe(coro, self.loop)] *)
| DeviceIO (cl : Client) (r : Request)  (* a request awaited on the device client *)
| Slept (ms : nat).                     (* [time.sleep], in milliseconds *)

(** The outside: how the device answers a request, given everything that
    happened before, and whether the ten seconds of [future.result] run out
    before the worker delivers.  [inl detail] and [Some detail] stand for a
    raised exception with that message. *)
Record Env := {
  answer_connect : list Event → Client → string + option string;
  answer_get_muted : list Event → Client → string + bool;
  answer_get_apps : list Event → Client → string + list App;
  answer : list Event → Client → Request → option string;
  wait_elapses : list Event → Command → bool
}.

(** [class LGTVRemote] *)
Record LGTVRemote := {
  client : option Client;
  connected : bool;
  tv_ip : string;
  client_key : option string
}.

(** The content of [tv_remote_config.json]: a JSON object whose keys may be
    missing; a [client_key] that is [null] reads like a missing one. *)
Record Config := {
  cfg_tv_ip : option string;
  cfg_client_key : option string
}.

(** [class TVRemoteGUI]: the session, the loop of the worker thread, the
    key read at start-up (an attribute that [connect_tv] reads with
    [getattr], so it may be absent) and the widgets the program reads back
    or writes. *)
Record TVRemoteGUI := {
  remote : LGTVRemote;
  loop : bool;
  saved_client_key : option (option string);
  ip_entry : string;
  connect_btn_enabled : bool;
  status_label : string;
  apps_listbox : list string;
  curselection : list nat;
  status_bar : string
}.

Record World := {
  gui : TVRemoteGUI;
  env : Env;
  config_file : option Config;
  fs_writable : bool;
  log : list Event
}.

(** ** Computations: state, exceptions, and the log *)

Definition M (A : Type) : Type := World → (Exn + A) * World.

Global Instance M_ret : MRet M := λ A x w, (inr x, w).

Global Instance M_bind : MBind M := λ A B f m w,
  match m w with
  | (inr x, w') => f x w'
  | (inl e, w') => (inl e, w')
  end.

Definition raise {A} (e : Exn) : M A := λ w, (inl e, w).

(** [try: body except Exception as e: handler e] *)
Definition try_except {A} (body : M A) (handler : Exn → M A) : M A := λ w,
  match body w with
  | (inl e, w') => handler e w'
  | (inr x, w') => (inr x, w')
  end.

Definition get_world : M World := λ w, (inr w, w).

Definition modify (f : World → World) : M unit := λ w, (inr (), f w).

Definition set_gui (g : TVRemoteGUI) (w : World) : World :=
  {| gui := g; env := env w; config_file := config_file w;
     fs_writable := fs_writable w; log := log w |}.

Definition set_remote (r : LGTVRemote) (g : TVRemoteGUI) : TVRemoteGUI :=
  {| remote := r; loop := loop g; saved_client_key := saved_client_key g;
     ip_entry := ip_entry g; connect_btn_enabled := connect_btn_enabled g;
     status_label := status_label g; apps_listbox := apps_listbox g;
     curselection := curselection g; status_bar := status_bar g |}.

Definition add_log (e : Event) (w : World) : World :=
  {| gui := gui w; env := env w; config_file := config_file w;
     fs_writable := fs_writable w; log := log w ++ [e] |}.

Definition emit (e : Event) : M unit := modify (add_log e).

Definition modify_gui (f : TVRemoteGUI → TVRemoteGUI) : M unit :=
  modify (λ w, set_gui (f (gui w)) w).

Definition modify_remote (f : LGTVRemote → LGTVRemote) : M unit :=
  modify_gui (λ g, set_remote (f (remote g)) g).

(** The session, [self.remote]. *)
Definition session (w : World) : LGTVRemote := remote (gui w).

(** [await cl.<request>]: the request goes out, then the device answers
    or the client raises. *)
Definition await {A} (cl : Client) (r : Request)
    (reply : Env → list Event → Client → string + A) : M A := λ w,
  match reply (env w) (log w) cl with
  | inr x => (inr x, add_log (DeviceIO cl r) w)
  | inl detail => (inl (DeviceError detail), add_log (DeviceIO cl r) w)
  end.

(** A request that returns nothing. *)
Definition request (cl : Client) (r : Request) : M unit :=
  await cl r (λ e h c, match answer e h c r with
                       | Some detail => inl detail
                       | None => inr ()
                       end).

(** ** [class LGTVRemote] *)

Module Remote.

(** [LGTVRemote.__init__] *)
Definition init : LGTVRemote :=
  {| client := None; connected := false; tv_ip := ""; client_key := None |}.

Definition set_client (c : option Client) (s : LGTVRemote) : LGTVRemote :=
  {| client := c; connected := connected s; tv_ip := tv_ip s;
     client_key := client_key s |}.

Definition set_connected (b : bool) (s : LGTVRemote) : LGTVRemote :=
  {| client := client s; connected := b; tv_ip := tv_ip s;
     client_key := client_key s |}.

Definition set_tv_ip (ip : string) (s : LGTVRemote) : LGTVRemote :=
  {| client := client s; connected := connected s; tv_ip := ip;
     client_key := client_key s |}.

Definition set_client_key (k : option string) (s : LGTVRemote) : LGTVRemote :=
  {| client := client s; connected := connected s; tv_ip := tv_ip s;
     client_key := k |}.

(** [self.client], as the guard [if self.client:] reads it. *)
Definition self_client : M (option Client) := λ w, (inr (client (session w)), w).

(** [connect_to_tv]: the new client is stored first, then the connection
    is awaited; the handler only prints and returns [False]. *)
Definition connect_to_tv (ip_address : string) (key : option string) : M Value :=
  try_except
    (let cl := WebOsClient ip_address key in
     modify_remote (set_client (Some cl));;
     k ← await cl ReqConnect answer_connect;
     modify_remote (set_connected true);;
     modify_remote (set_tv_ip ip_address);;
     modify_remote (set_client_key k);;
     mret (VBool true))
    (λ _, mret (VBool false)).

(** [get_client_key] *)
Definition get_client_key (s : LGTVRemote) : option string := client_key s.

Definition disconnect : M Value :=
  c ← self_client;
  match c with
  | Some cl => request cl ReqDisconnect;; modify_remote (set_connected false);; mret VNone
  | None => mret VNone
  end.

(** The shape shared by the methods that await one request and return
    nothing: [if self.client: await self.client.<request>]. *)
Definition guarded (r : Request) : M Value :=
  c ← self_client;
  match c with
  | Some cl => request cl r;; mret VNone
  | None => mret VNone
  end.

Definition volume_up : M Value := guarded ReqVolumeUp.
Definition volume_down : M Value := guarded ReqVolumeDown.

(** [await self.client.set_mute(not await self.client.get_muted())] *)
Definition mute_toggle : M Value :=
  c ← self_client;
  match c with
  | Some cl =>
      muted ← await cl ReqGetMuted answer_get_muted;
      request cl (ReqSetMute (negb muted));;
      mret VNone
  | None => mret VNone
  end.

Definition power_off : M Value := guarded ReqPowerOff.
Definition launch_app (app_id : string) : M Value := guarded (ReqLaunchApp app_id).
Definition nav_up : M Value := guarded (ReqButton "UP").
Definition nav_down : M Value := guarded (ReqButton "DOWN").
Definition nav_left : M Value := guarded (ReqButton "LEFT").
Definition nav_right : M Value := guarded (ReqButton "RIGHT").
Definition nav_ok : M Value := guarded (ReqButton "ENTER").
Definition nav_home : M Value := guarded (ReqButton "HOME").
Definition nav_back : M Value := guarded (ReqButton "BACK").
Definition media_play : M Value := guarded (ReqButton "PLAY").
Definition media_pause : M Value := guarded (ReqButton "PAUSE").
Definition media_stop : M Value := guarded (ReqButton "STOP").
Definition media_rewind : M Value := guarded (ReqButton "REWIND").
Definition media_fastforward : M Value := guarded (ReqButton "FASTFORWARD").

Definition get_apps : M Value :=
  c ← self_client;
  match c with
  | Some cl => apps ← await cl ReqGetApps answer_get_apps; mret (VApps apps)
  | None => mret (VApps [])
  end.

(** The coroutine a command stands for. *)
Definition coroutine (c : Command) : M Value :=
  match c with
  | ConnectToTv ip_address key => connect_to_tv ip_address key
  | Disconnect => disconnect
  | VolumeUp => volume_up
  | VolumeDown => volume_down
  | MuteToggle => mute_toggle
  | PowerOff => power_off
  | LaunchApp app_id => launch_app app_id
  | NavUp => nav_up
  | NavDown => nav_down
  | NavLeft => nav_left
  | NavRight => nav_right
  | NavOk => nav_ok
  | NavHome => nav_home
  | NavBack => nav_back
  | MediaPlay => media_play
  | MediaPause => media_pause
  | MediaStop => media_stop
  | MediaRewind => media_rewind
  | MediaFastforward => media_fastforward
  | GetApps => get_apps
  end.

End Remote.

(** ** [class TVRemoteGUI]

    The program starts a thread for each longer action ([connect],
    [smart_launcher], [try_espn], [get_apps]); the model runs the body of
    the thread to its end at the place where the thread is started. *)

Module GUI.

Definition set_loop (b : bool) (g : TVRemoteGUI) : TVRemoteGUI :=
  {| remote := remote g; loop := b; saved_client_key := saved_client_key g;
     ip_entry := ip_entry g; connect_btn_enabled := connect_btn_enabled g;
     status_label := status_label g; apps_listbox := apps_listbox g;
     curselection := curselection g; status_bar := status_bar g |}.

Definition set_saved_client_key (k : option (option string)) (g : TVRemoteGUI)
    : TVRemoteGUI :=
  {| remote := remote g; loop := loop g; saved_client_key := k;
     ip_entry := ip_entry g; connect_btn_enabled := connect_btn_enabled g;
     status_label := status_label g; apps_listbox := apps_listbox g;
     curselection := curselection g; status_bar := status_bar g |}.

Definition set_ip_entry (s : string) (g : TVRemoteGUI) : TVRemoteGUI :=
  {| remote := remote g; loop := loop g; saved_client_key := saved_client_key g;
     ip_entry := s; connect_btn_enabled := connect_btn_enabled g;
     status_label := status_label g; apps_listbox := apps_listbox g;
     curselection := curselection g; status_bar := status_bar g |}.

Definition set_connect_btn (b : bool) (g : TVRemoteGUI) : TVRemoteGUI :=
  {| remote := remote g; loop := loop g; saved_client_key := saved_client_key g;
     ip_entry := ip_entry g; connect_btn_enabled := b;
     status_label := status_label g; apps_listbox := apps_listbox g;
     curselection := curselection g; status_bar := status_bar g |}.

Definition set_status_label (s : string) (g : TVRemoteGUI) : TVRemoteGUI :=
  {| remote := remote g; loop := loop g; saved_client_key := saved_client_key g;
     ip_entry := ip_entry g; connect_btn_enabled := connect_btn_enabled g;
     status_label := s; apps_listbox := apps_listbox g;
     curselection := curselection g; status_bar := status_bar g |}.

(** The list box with new items; a deleted item is no longer selected. *)
Definition set_apps_listbox (items : list string) (g : TVRemoteGUI) : TVRemoteGUI :=
  {| remote := remote g; loop := loop g; saved_client_key := saved_client_key g;
     ip_entry := ip_entry g; connect_btn_enabled := connect_btn_enabled g;
     status_label := status_label g; apps_listbox := items;
     curselection := []; status_bar := status_bar g |}.

Definition set_status_bar (s : string) (g : TVRemoteGUI) : TVRemoteGUI :=
  {| remote := remote g; loop := loop g; saved_client_key := saved_client_key g;
     ip_entry := ip_entry g; connect_btn_enabled := connect_btn_enabled g;
     status_label := status_label g; apps_listbox := apps_listbox g;
     curselection := curselection g; status_bar := s |}.

Definition set_config_file (c : option Config) (w : World) : World :=
  {| gui := gui w; env := env w; config_file := c;
     fs_writable := fs_writable w; log := log w |}.

(** [update_status] *)
Definition update_status (message : string) : M unit :=
  modify_gui (set_status_bar message).

(** [run_async]: with a loop, the coroutine is handed to the worker,
    which runs it to its end; the caller gets its value, or, when the
    coroutine raised or the wait of ten seconds ran out, the status
    [Error: ...] and [None].  Without a loop nothing happens. *)
Definition run_async (c : Command) : M Value := λ w,
  if loop (gui w) then
    let w1 := add_log (Submitted c) w in
    let (r, w2) := Remote.coroutine c w1 in
    let delivered :=
      if wait_elapses (env w) (log w) c then inl TimeoutError else r in
    match delivered with
    | inr v => (inr v, w2)
    | inl e => (update_status ("Error: " +:+ exn_str e);; mret VNone) w2
    end
  else (inr VNone, w).

(** [save_config]: the file is opened with ['w'] and gets the two keys;
    the bare [except: pass] hides a file that cannot be written. *)
Definition save_config : M unit :=
  modify (λ w,
    if fs_writable w then
      set_config_file
        (Some {| cfg_tv_ip := Some (ip_entry (gui w));
                 cfg_client_key := Remote.get_client_key (session w) |}) w
    else w).

(** [load_config]; [ip_entry.insert(0, s)] puts [s] in front. *)
Definition load_config : M unit :=
  w ← get_world;
  match config_file w with
  | Some config =>
      modify_gui (λ g, set_ip_entry (default "192.168.1.100" (cfg_tv_ip config) +:+ ip_entry g) g);;
      modify_gui (set_saved_client_key (Some (cfg_client_key config)))
  | None =>
      modify_gui (λ g, set_ip_entry ("192.168.1.100" +:+ ip_entry g) g);;
      modify_gui (set_saved_client_key (Some None))
  end.

(** [start_async_loop]: the thread sets [self.loop]; the caller waits a
    tenth of a second for it. *)
Definition start_async_loop : M unit :=
  modify_gui (set_loop true);; emit (Slept 100).

(** [app.get('title', app.get('id', 'Unknown'))] *)
Definition listbox_title (app : App) : string :=
  match app !! "title" with
  | Some t => t
  | None => dict_get "id" "Unknown" app
  end.

(** [refresh_apps], with its thread body [get_apps]. *)
Definition refresh_apps : M unit :=
  apps ← run_async GetApps;
  if truthy apps then
    match apps with
    | VApps l =>
        modify_gui (set_apps_listbox (listbox_title <$> l));;
        update_status ("Found " +:+ pretty (length l) +:+ " apps")
    | _ => raise (TypeError "object is not iterable")
    end
  else mret ().

(** The thread body [connect] of [connect_tv]. *)
Definition connect (ip : string) : M unit :=
  w ← get_world;
  let client_key := default None (saved_client_key (gui w)) in
  success ← run_async (ConnectToTv ip client_key);
  (if truthy success then
     modify_gui (set_status_label ("Connected to " +:+ ip));;
     update_status "Connected successfully";;
     save_config;;
     refresh_apps
   else
     modify_gui (set_status_label "Connection Failed");;
     update_status "Connection failed");;
  modify_gui (set_connect_btn true).

(** [connect_tv]; the error dialog of an empty address is not modelled. *)
Definition connect_tv : M unit :=
  w ← get_world;
  let ip := PyStr.strip (ip_entry (gui w)) in
  if PyStr.truthy ip then
    update_status "Connecting...";;
    modify_gui (set_connect_btn false);;
    connect ip
  else mret ().

(** *** The launcher, [launch_app_smart] *)

(** The test of the [if] inside the loop over the apps. *)
Definition name_matches (app_name app_title : string) : bool :=
  PyStr.contains (PyStr.lower app_name) app_title ||
  PyStr.contains app_title (PyStr.lower app_name).

(** [for app in apps: ...]; the result tells whether the loop left the
    launcher through its [return]. *)
Fixpoint search_apps (app_name : string) (apps : list App) : M bool :=
  match apps with
  | [] => mret false
  | app :: rest =>
      let app_title := PyStr.lower (dict_get "title" "" app) in
      let app_id := dict_get "id" "" app in
      if name_matches app_name app_title then
        run_async (LaunchApp app_id);;
        update_status ("Found and launching " +:+ app_name +:+ ": " +:+ app_id);;
        mret true
      else search_apps app_name rest
  end.

Definition fallback_ids : gmap string (list string) :=
  <["Netflix" := ["netflix"]]> $
  <["YouTube" := ["youtube.leanback.v4"; "youtube"]]> $
  <["Prime Video" := ["amazon"; "primevideo"]]> $
  <["Disney+" := ["com.disney.disneyplus-prod"; "disney"]]> $
  <["Hulu" := ["hulu"]]> $
  <["Apple TV" := ["com.apple.appletv"; "appletv"]]> $
  <["HBO Max" := ["com.hbo.hbonow"; "hbomax"; "com.hbo.max"]]> $
  <["Peacock" := ["com.peacocktv.peacocktv"; "peacock"; "com.peacocktv"]]> $
  <["ESPN" := ["espn"; "com.espn.webostv"; "com.espn.app"]]> $
  <["Food Network" := ["com.scripts.foodnetwork"; "foodnetwork"; "com.foodnetwork"]]> $
  <["Paramount+" := ["com.cbs.app"; "paramountplus"; "com.paramount"]]> ∅.

(** [time.sleep(0.5)] *)
Definition sleep_half_second : M unit := emit (Slept 500).

(** [for app_id in fallback_ids[app_name]: try: ... except: continue] *)
Fixpoint try_ids (app_name : string) (ids : list string) : M unit :=
  match ids with
  | [] => mret ()
  | app_id :: rest =>
      try_except
        (run_async (LaunchApp app_id);;
         update_status ("Trying " +:+ app_name +:+ " with ID: " +:+ app_id);;
         sleep_half_second)
        (λ _, mret ());;
      try_ids app_name rest
  end.

(** The thread body [smart_launcher] of [launch_app_smart]. *)
Definition smart_launcher (app_name : string) : M unit :=
  try_except
    (apps ← run_async GetApps;
     returned ←
       (if truthy apps then
          match apps with
          | VApps l => search_apps app_name l
          | _ => raise (TypeError "object is not iterable")
          end
        else mret false);
     if (returned : bool) then mret ()
     else
       match fallback_ids !! app_name with
       | Some ids => try_ids app_name ids
       | None => update_status ("Could not find " +:+ app_name)
       end)
    (λ e, update_status ("Error launching " +:+ app_name +:+ ": " +:+ exn_str e)).

Definition launch_app_smart (app_name : string) : M unit := smart_launcher app_name.

(** [launch_espn], with its thread body [try_espn]. *)
Fixpoint try_espn (espn_ids : list string) : M unit :=
  match espn_ids with
  | [] => mret ()
  | espn_id :: rest =>
      try_except
        (run_async (LaunchApp espn_id);;
         update_status ("Trying ESPN: " +:+ espn_id);;
         sleep_half_second)
        (λ _, mret ());;
      try_espn rest
  end.

Definition launch_espn : M unit :=
  try_espn ["espn"; "com.espn.webostv"; "com.espn.app"; "ESPN"].

(** *** The buttons *)

Definition nav_up : M unit := run_async NavUp;; update_status "Navigate up".
Definition nav_down : M unit := run_async NavDown;; update_status "Navigate down".
Definition nav_left : M unit := run_async NavLeft;; update_status "Navigate left".
Definition nav_right : M unit := run_async NavRight;; update_status "Navigate right".
Definition nav_ok : M unit := run_async NavOk;; update_status "OK pressed".
Definition nav_home : M unit := run_async NavHome;; update_status "Home pressed".
Definition nav_back : M unit := run_async NavBack;; update_status "Back pressed".
Definition volume_up : M unit := run_async VolumeUp;; update_status "Volume up".
Definition volume_down : M unit := run_async VolumeDown;; update_status "Volume down".
Definition mute_toggle : M unit := run_async MuteToggle;; update_status "Mute toggled".
Definition media_play : M unit := run_async MediaPlay;; update_status "Play".
Definition media_pause : M unit := run_async MediaPause;; update_status "Pause".
Definition media_stop : M unit := run_async MediaStop;; update_status "Stop".
Definition media_rewind : M unit := run_async MediaRewind;; update_status "Rewind".
Definition media_fastforward : M unit :=
  run_async MediaFastforward;; update_status "Fast Forward".

(** [power_off]; [yes] is the answer to the dialog [Turn off TV?]. *)
Definition power_off (yes : bool) : M unit :=
  if yes then run_async PowerOff;; update_status "TV powered off" else mret ().

(** *** The handler of a double click in the list of apps *)

(** The names an instance of [TVRemoteGUI] has: the attributes set by
    [__init__], [setup_gui] and [load_config], and the methods of the
    class.  The class defines no [__getattr__]. *)
Definition attributes : gset string :=
  list_to_set
    ["remote"; "loop"; "config_file"; "root"; "ip_entry"; "connect_btn";
     "status_label"; "apps_listbox"; "status_bar"; "saved_client_key";
     "__init__"; "setup_gui"; "start_async_loop"; "run_async"; "save_config";
     "load_config"; "connect_tv"; "launch_app_smart"; "launch_espn";
     "update_status"; "nav_up"; "nav_down"; "nav_left"; "nav_right"; "nav_ok";
     "nav_home"; "nav_back"; "volume_up"; "volume_down"; "mute_toggle";
     "media_play"; "media_pause"; "media_stop"; "media_rewind";
     "media_fastforward"; "power_off"; "refresh_apps"; "launch_selected_app";
     "run"].

(** [self.<name>]: the attribute, or [AttributeError]. *)
Definition getattr (name : string) : M string :=
  if decide (name ∈ attributes) then mret name
  else raise (AttributeError
                ("'TVRemoteGUI' object has no attribute '" +:+ name +:+ "'")).

(** [f(arg)] for an attribute [f] and a string [arg]: the two methods
    that take one string run; the other attributes take no string. *)
Definition call (f arg : string) : M unit :=
  if decide (f = "launch_app_smart") then launch_app_smart arg
  else if decide (f = "update_status") then update_status arg
  else raise (TypeError ("cannot call " +:+ f +:+ " with a string")).

(** [launch_selected_app]: Python looks [self.launch_app] up before it
    evaluates the argument. *)
Definition launch_selected_app : M unit :=
  w ← get_world;
  match curselection (gui w) with
  | [] => mret ()
  | i :: _ =>
      let app_name := default "" (apps_listbox (gui w) !! i) in
      f ← getattr "launch_app";
      call f (PyStr.remove_spaces (PyStr.lower app_name))
  end.

(** *** Start-up *)

(** The object after [setup_gui]: an empty entry, the label
    [Not Connected], the status [Ready], no [saved_client_key] yet. *)
Definition after_setup_gui : TVRemoteGUI :=
  {| remote := Remote.init; loop := false; saved_client_key := None;
     ip_entry := ""; connect_btn_enabled := true;
     status_label := "Not Connected"; apps_listbox := [];
     curselection := []; status_bar := "Ready" |}.

(** [TVRemoteGUI.__init__], in a given outside: [setup_gui],
    [load_config], [start_async_loop]. *)
Definition init (e : Env) (file : option Config) (writable : bool) : World :=
  snd ((load_config;; start_async_loop)
         {| gui := after_setup_gui; env := e; config_file := file;
            fs_writable := writable; log := [] |}).

End GUI.

(** ** What an observer reads off the log *)

(** The commands handed to the worker, in order. *)
Definition submitted (evs : list Event) : list Command :=
  omap (λ e, match e with Submitted c => Some c | _ => None end) evs.

(** The requests that reached the device client, in order. *)
Definition device_io (evs : list Event) : list (Client * Request) :=
  omap (λ e, match e with DeviceIO cl r => Some (cl, r) | _ => None end) evs.

(** The log without the device requests: submissions and pauses. *)
Definition caller_view (evs : list Event) : list Event :=
  omap (λ e, match e with DeviceIO _ _ => None | _ => Some e end) evs.

(** The app identifiers of the launches handed to the worker. *)
Definition launch_ids (evs : list Event) : list string :=
  omap (λ c, match c with LaunchApp app_id => Some app_id | _ => None end)
       (submitted evs).

(** An entry of the catalog matches a requested name, in the words of the
    specification: one lower-cased string occurs in the other. *)
Definition entry_matches (app_name : string) (app : App) : Prop :=
  PyStr.substring_of (PyStr.lower app_name) (PyStr.lower (dict_get "title" "" app)) ∨
  PyStr.substring_of (PyStr.lower (dict_get "title" "" app)) (PyStr.lower app_name).

(** The operations of the session on the device: every command but the
    connection itself. *)
Definition device_operation (c : Command) : bool :=
  match c with
  | ConnectToTv _ _ => false
  | _ => true
  end.

(** What a device operation returns when it does nothing. *)
Definition idle_value (c : Command) : Value :=
  match c with
  | GetApps => VApps []
  | _ => VNone
  end.

(** A caller that hands the commands [cs] to [run_async] one after the
    other. *)
Fixpoint run_all (cs : list Command) : M unit :=
  match cs with
  | [] => mret ()
  | c :: rest => GUI.run_async c;; run_all rest
  end.

(** The same on the session itself, each coroutine run to its end whether
    it raised or not. *)
Fixpoint perform_all (cs : list Command) (w : World) : World :=
  match cs with
  | [] => w
  | c :: rest => perform_all rest (snd (Remote.coroutine c w))
  end.

(** Events that are requests to the device. *)
Definition is_io (e : Event) : Prop := ∃ cl r, e = DeviceIO cl r.

(** A step of the worker: only the session and the log change, and the
    log grows by requests to the device. *)
Definition worker_step (w w' : World) : Prop :=
  gui w' = set_remote (session w') (gui w) ∧
  env w' = env w ∧
  config_file w' = config_file w ∧
  fs_writable w' = fs_writable w ∧
  ∃ evs, log w' = log w ++ evs ∧ Forall is_io evs.

(** The world in which [connect_to_tv] awaits the connection: the new
    client is already the client of the session. *)
Definition with_client (cl : Client) (w : World) : World :=
  set_gui (set_remote (Remote.set_client (Some cl) (session w)) (gui w)) w.

(** What the caller's [future.result(timeout=10)] yields. *)
Definition delivery (c : Command) (w : World) : Exn + Value :=
  if wait_elapses (env w) (log w) c then inl TimeoutError
  else fst (Remote.coroutine c (add_log (Submitted c) w)).

(** The world the worker leaves behind. *)
Definition worked (c : Command) (w : World) : World :=
  snd (Remote.coroutine c (add_log (Submitted c) w)).

(** What the caller of [try_ids] sees for the candidates [ids]: each
    launch handed to the worker, each followed by the pause. *)
Definition attempts (ids : list string) : list Event :=
  ids ≫= λ app_id, [Submitted (LaunchApp app_id); Slept 500].

(** The list of apps the launcher gets holds no entry that matches. *)
Definition no_catalog_match (app_name : string) (w : World) : Prop :=
  ∀ apps, fst (GUI.run_async GetApps w) = inr (VApps apps) →
          Forall (λ app, ¬ entry_matches app_name app) apps.

(** The canonical names of the table. *)
Definition canonical_names : list string :=
  ["Netflix"; "YouTube"; "Prime Video"; "Disney+"; "Hulu"; "Apple TV";
   "HBO Max"; "Peacock"; "ESPN"; "Food Network"; "Paramount+"].

(** A computation that leaves [saved_client_key] alone and only adds to
    the log. *)
Definition keeps_key {A} (m : M A) : Prop :=
  ∀ w, saved_client_key (gui (snd (m w))) = saved_client_key (gui w) ∧
       ∃ evs, log (snd (m w)) = log w ++ evs.

(** ** Environments used in the examples *)

Module Examples.

(** A television that accepts everything, pairs with the key [K] and
    lists no apps. *)
Definition tv_ok : Env :=
  {| answer_connect := λ _ _, inr (Some "K");
     answer_get_muted := λ _ _, inr false;
     answer_get_apps := λ _ _, inr [];
     answer := λ _ _ _, None;
     wait_elapses := λ _ _, false |}.

(** A television that is switched off: every request raises, with an
    empty message. *)
Definition tv_off : Env :=
  {| answer_connect := λ _ _, inl "";
     answer_get_muted := λ _ _, inl "";
     answer_get_apps := λ _ _, inl "";
     answer := λ _ _ _, Some "";
     wait_elapses := λ _ _, false |}.

(** A television with an app whose title contains [Prime Video]. *)
Definition prime : App := <["id" := "x"]> (<["title" := "Amazon Prime Video"]> ∅).
Definition news : App := <["id" := "n"]> (<["title" := "News"]> ∅).

Definition tv_prime : Env :=
  {| answer_connect := λ _ _, inr (Some "K");
     answer_get_muted := λ _ _, inr false;
     answer_get_apps := λ _ _, inr [news; prime];
     answer := λ _ _ _, None;
     wait_elapses := λ _ _, false |}.

(** A television on which raising the volume takes more than the ten
    seconds, and one that refuses it with an empty message. *)
Definition tv_sluggish : Env :=
  {| answer_connect := λ _ _, inr (Some "K");
     answer_get_muted := λ _ _, inr false;
     answer_get_apps := λ _ _, inr [];
     answer := λ _ _ _, None;
     wait_elapses := λ _ c, match c with VolumeUp => true | _ => false end |}.

Definition tv_refusing : Env :=
  {| answer_connect := λ _ _, inr (Some "K");
     answer_get_muted := λ _ _, inr false;
     answer_get_apps := λ _ _, inr [];
     answer := λ _ _ r, match r with ReqVolumeUp => Some "" | _ => None end;
     wait_elapses := λ _ _, false |}.

Definition the_client : Client := WebOsClient "192.168.1.100" None.

(** The program after start-up with no configuration file, and after a
    click on [Connect to TV]. *)
Definition started (e : Env) : World := GUI.init e None true.
Definition after_connect (e : Env) : World := snd (GUI.connect_tv (started e)).

(** The user selects the item [i] of the list of apps. *)
Definition click (i : nat) (w : World) : World :=
  set_gui
    {| remote := remote (gui w); loop := loop (gui w);
       saved_client_key := saved_client_key (gui w);
       ip_entry := ip_entry (gui w);
       connect_btn_enabled := connect_btn_enabled (gui w);
       status_label := status_label (gui w);
       apps_listbox := apps_listbox (gui w);
       curselection := [i]; status_bar := status_bar (gui w) |} w.

(** The program is closed and started again: a new object, the same
    outside, the file as it was left. *)
Definition restarted (w : World) : World :=
  GUI.init (env w) (config_file w) (fs_writable w).

End Examples.

(** ** The rest of the front end *)


(** The handlers of the navigation, volume and media buttons, each with
    the command it hands to [run_async] and the status it sets afterwards. *)
Definition button_handlers : list (M unit * Command * string) :=
  [(GUI.nav_up, NavUp, "Navigate up");
   (GUI.nav_down, NavDown, "Navigate down");
   (GUI.nav_left, NavLeft, "Navigate left");
   (GUI.nav_right, NavRight, "Navigate right");
   (GUI.nav_ok, NavOk, "OK pressed");
   (GUI.nav_home, NavHome, "Home pressed");
   (GUI.nav_back, NavBack, "Back pressed");
   (GUI.volume_up, VolumeUp, "Volume up");
   (GUI.volume_down, VolumeDown, "Volume down");
   (GUI.mute_toggle, MuteToggle, "Mute toggled");
   (GUI.media_play, MediaPlay, "Play");
   (GUI.media_pause, MediaPause, "Pause");
   (GUI.media_stop, MediaStop, "Stop");
   (GUI.media_rewind, MediaRewind, "Rewind");
   (GUI.media_fastforward, MediaFastforward, "Fast Forward")].

(** The commands that are neither the connection nor the disconnection. *)
Definition plain_operation (c : Command) : bool :=
  match c with
  | ConnectToTv _ _ | Disconnect => false
  | _ => true
  end.

(** A string of white space only, the empty one included. *)
Fixpoint blank (s : string) : bool :=
  match s with
  | EmptyString => true
  | String c s' => PyStr.isspace c && blank s'
  end.

(** What [refresh_apps] and the bridge leave alone in the front end: the
    session, the loop, the key read at start-up, the address entry, the
    connect button, the connection label, the file and the outside. *)
Definition front_end_kept (w w' : World) : Prop :=
  session w' = session w ∧
  loop (gui w') = loop (gui w) ∧
  saved_client_key (gui w') = saved_client_key (gui w) ∧
  ip_entry (gui w') = ip_entry (gui w) ∧
  connect_btn_enabled (gui w') = connect_btn_enabled (gui w) ∧
  status_label (gui w') = status_label (gui w) ∧
  config_file w' = config_file w ∧
  fs_writable w' = fs_writable w ∧
  env w' = env w.

(** The launches and pauses of [launch_espn], as its caller sees them. *)
Definition espn_attempts : list Event :=
  attempts ["espn"; "com.espn.webostv"; "com.espn.app"; "ESPN"].

(** What the user does with the window, and the handler each action
    runs. *)
Inductive Action :=
| ClickConnect
| ClickQuickLaunch (app_name : string)
| ClickRefresh
| ClickPowerOff (yes : bool)
| ClickButton (n : nat)
| DoubleClickApp.

Definition perform (a : Action) : M unit :=
  match a with
  | ClickConnect => GUI.connect_tv
  | ClickQuickLaunch app_name => GUI.launch_app_smart app_name
  | ClickRefresh => GUI.refresh_apps
  | ClickPowerOff yes => GUI.power_off yes
  | ClickButton n =>
      match button_handlers !! n with
      | Some (handler, _, _) => handler
      | None => mret ()
      end
  | DoubleClickApp => GUI.launch_selected_app
  end.

(** A handler that raises ends there; the window goes on with the next
    action. *)
Fixpoint perform_all_actions (actions : list Action) (w : World) : World :=
  match actions with
  | [] => w
  | a :: rest => perform_all_actions rest (snd (perform a w))
  end.

(** What stays through a run: the key read at start-up, the loop and the
    text of the address entry; with [strict], also the session and the
    file. *)
Definition steady_step (strict : bool) (w w' : World) : Prop :=
  saved_client_key (gui w') = saved_client_key (gui w) ∧
  loop (gui w') = loop (gui w) ∧
  ip_entry (gui w') = ip_entry (gui w) ∧
  env w' = env w ∧
  fs_writable w' = fs_writable w ∧
  (strict = true → session w' = session w ∧ config_file w' = config_file w).

Definition steady {A} (strict : bool) (m : M A) : Prop :=
  ∀ w, steady_step strict w (snd (m w)).

(** More outsides for the examples. *)
Module Scenarios.

(** A television that pairs, but only after the ten seconds of the wait. *)
Definition tv_slow_pairing : Env :=
  {| answer_connect := λ _ _, inr (Some "K");
     answer_get_muted := λ _ _, inr false;
     answer_get_apps := λ _ _, inr [];
     answer := λ _ _ _, None;
     wait_elapses := λ _ c, match c with ConnectToTv _ _ => true | _ => false end |}.

(** A television whose mute state cannot be read. *)
Definition tv_unreadable : Env :=
  {| answer_connect := λ _ _, inr (Some "K");
     answer_get_muted := λ _ _, inl "no answer";
     answer_get_apps := λ _ _, inr [];
     answer := λ _ _ _, None;
     wait_elapses := λ _ _, false |}.

(** A television that connects and then refuses every request. *)
Definition tv_stubborn : Env :=
  {| answer_connect := λ _ _, inr (Some "K");
     answer_get_muted := λ _ _, inl "refused";
     answer_get_apps := λ _ _, inl "refused";
     answer := λ _ _ _, Some "refused";
     wait_elapses := λ _ _, false |}.

(** A television at [192.168.1.100]; nothing answers at any other
    address. *)
Definition tv_one_address : Env :=
  {| answer_connect := λ _ cl,
       if decide (host cl = "192.168.1.100") then inr (Some "K") else inl "unreachable";
     answer_get_muted := λ _ _, inr false;
     answer_get_apps := λ _ _, inr [];
     answer := λ _ _ _, None;
     wait_elapses := λ _ _, false |}.

(** A list of apps whose first entry has no title. *)
Definition untitled : App := <["id" := "u"]> ∅.

Definition tv_untitled : Env :=
  {| answer_connect := λ _ _, inr (Some "K");
     answer_get_muted := λ _ _, inr false;
     answer_get_apps := λ _ _, inr [untitled; Examples.prime];
     answer := λ _ _ _, None;
     wait_elapses := λ _ _, false |}.

(** The program started with a file that holds an address and a key. *)
Definition paired_file : Config :=
  {| cfg_tv_ip := Some "10.0.0.7"; cfg_client_key := Some "K0" |}.

(** The user has typed only blanks into the address entry. *)
Definition with_entry (text : string) (w : World) : World :=
  set_gui (GUI.set_ip_entry text (gui w)) w.

End Scenarios.

(** ** Strings *)

Example lower_prime : PyStr.lower "Prime Video" = "prime video".
Proof. reflexivity. Qed.

Example contains_prime :
  PyStr.contains (PyStr.lower "Prime Video") (PyStr.lower "Amazon Prime Video") = true.
Proof. reflexivity. Qed.

Example strip_ip : PyStr.strip "  192.168.1.20 " = "192.168.1.20".
Proof. reflexivity. Qed.

Section Strings.

Lemma append_cons a s t : String a s +:+ t = String a (s +:+ t).
Proof. reflexivity. Qed.

Lemma append_empty s : "" +:+ s = s.
Proof. reflexivity. Qed.

Lemma startswith_spec p s :
  PyStr.startswith p s = true ↔ ∃ post, s = p +:+ post.
Proof.
  revert s. induction p as [|a p IH]; intros s; simpl.
  - split; [intros _; exists s; reflexivity | done].
  - destruct s as [|b s].
    + split; [done | intros [post H]; rewrite append_cons in H; discriminate].
    + destruct (decide (a = b)) as [->|Hne].
      * rewrite IH. split; intros [post H]; exists post.
        -- rewrite append_cons. by f_equal.
        -- rewrite append_cons in H. by injection H.
      * split; [done | intros [post H]; rewrite append_cons in H].
        injection H as ? _. congruence.
Qed.

Lemma contains_spec needle hay :
  PyStr.contains needle hay = true ↔ PyStr.substring_of needle hay.
Proof.
  unfold PyStr.substring_of. induction hay as [|b hay IH].
  - simpl. rewrite orb_false_r, startswith_spec. split.
    + intros [post H]. exists "", post. by rewrite append_empty.
    + intros ([|c pre] & post & H).
      * exists post. by rewrite append_empty in H.
      * rewrite append_cons in H. discriminate.
  - cbn [PyStr.contains]. rewrite orb_true_iff, startswith_spec, IH. split.
    + intros [[post H]|(pre & post & H)].
      * exists "", post. by rewrite append_empty.
      * exists (String b pre), post. rewrite append_cons. by f_equal.
    + intros ([|c pre] & post & H).
      * left. exists post. by rewrite append_empty in H.
      * right. rewrite append_cons in H. injection H as -> H.
        by exists pre, post.
Qed.

(** The launcher's test decides the match of the specification. *)
Lemma name_matches_spec app_name (app : App) :
  GUI.name_matches app_name (PyStr.lower (dict_get "title" "" app)) = true
  ↔ entry_matches app_name app.
Proof.
  unfold GUI.name_matches, entry_matches.
  by rewrite orb_true_iff, !contains_spec.
Qed.

End Strings.

(** ** The session *)

Section Session.

Lemma set_remote_id g : set_remote (remote g) g = g.
Proof. by destruct g. Qed.

Lemma worker_step_refl w : worker_step w w.
Proof.
  unfold worker_step, session. rewrite set_remote_id.
  repeat split; try done. exists []. by rewrite app_nil_r.
Qed.

Lemma worker_step_io w cl r : worker_step w (add_log (DeviceIO cl r) w).
Proof.
  unfold worker_step, session. simpl. rewrite set_remote_id.
  repeat split; try done. exists [DeviceIO cl r].
  split; [done | repeat constructor; by exists cl, r].
Qed.

Lemma submitted_io evs : Forall is_io evs → submitted evs = [].
Proof.
  induction 1 as [|e evs (cl & r & ->) _ IH]; [done | exact IH].
Qed.

Lemma caller_view_io evs : Forall is_io evs → caller_view evs = [].
Proof.
  induction 1 as [|e evs (cl & r & ->) _ IH]; [done | exact IH].
Qed.

Lemma submitted_app evs1 evs2 :
  submitted (evs1 ++ evs2) = submitted evs1 ++ submitted evs2.
Proof. apply omap_app. Qed.

Lemma caller_view_app evs1 evs2 :
  caller_view (evs1 ++ evs2) = caller_view evs1 ++ caller_view evs2.
Proof. apply omap_app. Qed.

Lemma launch_ids_app evs1 evs2 :
  launch_ids (evs1 ++ evs2) = launch_ids evs1 ++ launch_ids evs2.
Proof. unfold launch_ids. by rewrite submitted_app, omap_app. Qed.

(** *** What each coroutine does *)

Lemma await_run {A} cl r (reply : Env → list Event → Client → string + A) w :
  await cl r reply w =
    (match reply (env w) (log w) cl with
     | inr x => inr x
     | inl detail => inl (DeviceError detail)
     end, add_log (DeviceIO cl r) w).
Proof. unfold await. by destruct (reply _ _ _). Qed.

Lemma guarded_run r w :
  Remote.guarded r w =
    match client (session w) with
    | Some cl =>
        (match answer (env w) (log w) cl r with
         | Some detail => inl (DeviceError detail)
         | None => inr VNone
         end, add_log (DeviceIO cl r) w)
    | None => (inr VNone, w)
    end.
Proof.
  unfold Remote.guarded, Remote.self_client, request, mbind, M_bind, mret, M_ret.
  destruct (client (session w)) as [cl|]; [|done].
  rewrite await_run. by destruct (answer _ _ _ _).
Qed.

Lemma mute_toggle_run w :
  Remote.mute_toggle w =
    match client (session w) with
    | Some cl =>
        match answer_get_muted (env w) (log w) cl with
        | inr muted =>
            let w1 := add_log (DeviceIO cl ReqGetMuted) w in
            (match answer (env w) (log w1) cl (ReqSetMute (negb muted)) with
             | Some detail => inl (DeviceError detail)
             | None => inr VNone
             end, add_log (DeviceIO cl (ReqSetMute (negb muted))) w1)
        | inl detail =>
            (inl (DeviceError detail), add_log (DeviceIO cl ReqGetMuted) w)
        end
    | None => (inr VNone, w)
    end.
Proof.
  unfold Remote.mute_toggle, Remote.self_client, request, mbind, M_bind, mret, M_ret.
  destruct (client (session w)) as [cl|]; [|done].
  rewrite await_run. destruct (answer_get_muted _ _ _) as [detail|muted]; [done|].
  rewrite await_run. simpl. by destruct (answer _ _ _ _).
Qed.

Lemma get_apps_run w :
  Remote.get_apps w =
    match client (session w) with
    | Some cl =>
        (match answer_get_apps (env w) (log w) cl with
         | inr apps => inr (VApps apps)
         | inl detail => inl (DeviceError detail)
         end, add_log (DeviceIO cl ReqGetApps) w)
    | None => (inr (VApps []), w)
    end.
Proof.
  unfold Remote.get_apps, Remote.self_client, mbind, M_bind, mret, M_ret.
  destruct (client (session w)) as [cl|]; [|done].
  rewrite await_run. by destruct (answer_get_apps _ _ _).
Qed.

Lemma disconnect_run w :
  Remote.disconnect w =
    match client (session w) with
    | Some cl =>
        let w1 := add_log (DeviceIO cl ReqDisconnect) w in
        match answer (env w) (log w) cl ReqDisconnect with
        | Some detail => (inl (DeviceError detail), w1)
        | None =>
            (inr VNone,
             set_gui (set_remote (Remote.set_connected false (session w)) (gui w)) w1)
        end
    | None => (inr VNone, w)
    end.
Proof.
  unfold Remote.disconnect, Remote.self_client, request, mbind, M_bind, mret, M_ret.
  destruct (client (session w)) as [cl|]; [|done].
  rewrite await_run. by destruct (answer _ _ _ _).
Qed.

Lemma connect_to_tv_run ip key w :
  let cl := WebOsClient ip key in
  let w1 := add_log (DeviceIO cl ReqConnect) (with_client cl w) in
  Remote.connect_to_tv ip key w =
    match answer_connect (env w) (log w) cl with
    | inr k =>
        (inr (VBool true),
         set_gui (set_remote
                    {| client := Some cl; connected := true; tv_ip := ip;
                       client_key := k |} (gui w)) w1)
    | inl _ => (inr (VBool false), w1)
    end.
Proof.
  unfold Remote.connect_to_tv, try_except, modify_remote, modify_gui, modify,
    mbind, M_bind, mret, M_ret.
  rewrite await_run. simpl. by destruct (answer_connect _ _ _).
Qed.

End Session.

Section Worker.

Local Ltac by_command c :=
  destruct c;
  unfold Remote.coroutine, Remote.volume_up, Remote.volume_down, Remote.power_off,
    Remote.launch_app, Remote.nav_up, Remote.nav_down, Remote.nav_left,
    Remote.nav_right, Remote.nav_ok, Remote.nav_home, Remote.nav_back,
    Remote.media_play, Remote.media_pause, Remote.media_stop,
    Remote.media_rewind, Remote.media_fastforward.

Local Ltac step_cases :=
  unfold worker_step, session, with_client; simpl;
  rewrite ?set_remote_id;
  repeat split; try done;
  first [ by (exists []; rewrite app_nil_r)
        | eexists [_]; split; [done | repeat constructor; by eexists _, _]
        | eexists [_; _]; split;
          [by rewrite <- app_assoc | repeat constructor; by eexists _, _] ].

(** Every coroutine is a step of the worker. *)
Lemma coroutine_step c w : worker_step w (snd (Remote.coroutine c w)).
Proof.
  by_command c;
    try (rewrite guarded_run; destruct (client (session w));
         [apply worker_step_io | apply worker_step_refl]).
  - rewrite connect_to_tv_run. destruct (answer_connect _ _ _); step_cases.
  - rewrite disconnect_run. destruct (client (session w)); [|apply worker_step_refl].
    destruct (answer _ _ _ _); step_cases.
  - rewrite mute_toggle_run. destruct (client (session w)); [|apply worker_step_refl].
    destruct (answer_get_muted _ _ _); step_cases.
  - rewrite get_apps_run. destruct (client (session w));
      [apply worker_step_io | apply worker_step_refl].
Qed.

(** A device operation neither replaces the client nor raises the flag
    [connected]. *)
Lemma operation_keeps_client c w :
  device_operation c = true →
  client (session (snd (Remote.coroutine c w))) = client (session w) ∧
  (connected (session w) = false →
   connected (session (snd (Remote.coroutine c w))) = false).
Proof.
  intros Hop. by_command c; try discriminate;
    try (rewrite guarded_run; by destruct (client (session w)) eqn:Hc).
  - rewrite disconnect_run. destruct (client (session w)) eqn:Hc; [|done].
    by destruct (answer _ _ _ _).
  - rewrite mute_toggle_run. destruct (client (session w)) eqn:Hc; [|done].
    by destruct (answer_get_muted _ _ _).
  - rewrite get_apps_run. by destruct (client (session w)) eqn:Hc.
Qed.

(** With a client, a device operation starts with a request on it. *)
Lemma operation_requests c w cl :
  device_operation c = true →
  client (session w) = Some cl →
  ∃ r evs, log (snd (Remote.coroutine c w)) = log w ++ DeviceIO cl r :: evs.
Proof.
  intros Hop Hcl. by_command c; try discriminate;
    try (rewrite guarded_run, Hcl; by eexists _, []).
  - rewrite disconnect_run, Hcl.
    destruct (answer _ _ _ _); by eexists _, [].
  - rewrite mute_toggle_run, Hcl.
    destruct (answer_get_muted _ _ _); simpl.
    + by eexists _, [].
    + eexists _, [_]. by rewrite <- app_assoc.
  - rewrite get_apps_run, Hcl. by eexists _, [].
Qed.

(** Without a client, a device operation returns at once. *)
Lemma operation_idle c w :
  device_operation c = true →
  client (session w) = None →
  Remote.coroutine c w = (inr (idle_value c), w).
Proof.
  intros Hop Hcl. by_command c; try discriminate;
    try (by rewrite guarded_run, Hcl).
  - by rewrite disconnect_run, Hcl.
  - by rewrite mute_toggle_run, Hcl.
  - by rewrite get_apps_run, Hcl.
Qed.

Lemma perform_all_keeps_client cs w cl :
  Forall (λ c, device_operation c = true) cs →
  client (session w) = Some cl →
  connected (session w) = false →
  client (session (perform_all cs w)) = Some cl ∧
  connected (session (perform_all cs w)) = false.
Proof.
  intros Hops. revert w. induction Hops as [|c cs Hc _ IH]; intros w Hcl Hconn.
  - done.
  - simpl. destruct (operation_keeps_client c w Hc) as [Hk Hf].
    apply IH; [by rewrite Hk | by apply Hf].
Qed.

End Worker.

(** ** The bridge, [run_async] *)

Section Bridge.

Lemma run_async_run c w :
  loop (gui w) = true →
  GUI.run_async c w =
    match delivery c w with
    | inr v => (inr v, worked c w)
    | inl e =>
        (inr VNone,
         set_gui (GUI.set_status_bar ("Error: " +:+ exn_str e) (gui (worked c w)))
                 (worked c w))
    end.
Proof.
  intros Hloop. unfold GUI.run_async, delivery, worked. rewrite Hloop.
  destruct (Remote.coroutine c (add_log (Submitted c) w)) as [r w2]. simpl.
  by destruct (wait_elapses _ _ _), r.
Qed.

Lemma run_async_no_loop c w :
  loop (gui w) = false → GUI.run_async c w = (inr VNone, w).
Proof. intros Hloop. unfold GUI.run_async. by rewrite Hloop. Qed.

Lemma worked_step c w :
  worker_step (add_log (Submitted c) w) (worked c w).
Proof. apply coroutine_step. Qed.

Lemma worked_log c w :
  ∃ evs, log (worked c w) = log w ++ Submitted c :: evs ∧ Forall is_io evs.
Proof.
  destruct (worked_step c w) as (_ & _ & _ & _ & evs & Hl & Hio).
  exists evs. split; [|done]. rewrite Hl. simpl. by rewrite <- app_assoc.
Qed.

Lemma worked_loop c w : loop (gui (worked c w)) = loop (gui w).
Proof. destruct (worked_step c w) as (Hg & _). by rewrite Hg. Qed.

Lemma worked_env c w : env (worked c w) = env w.
Proof. by destruct (worked_step c w) as (_ & He & _). Qed.

(** [run_async] never raises; it leaves the loop running and the log
    longer by the submission and the requests of the coroutine. *)
Lemma run_async_returns c w :
  loop (gui w) = true →
  ∃ v w' evs,
    GUI.run_async c w = (inr v, w') ∧
    loop (gui w') = true ∧
    env w' = env w ∧
    log w' = log w ++ Submitted c :: evs ∧
    Forall is_io evs.
Proof.
  intros Hloop. rewrite run_async_run by done.
  destruct (worked_log c w) as (evs & Hl & Hio).
  pose proof (worked_loop c w) as Hlp. pose proof (worked_env c w) as He.
  destruct (delivery c w) as [e|v]; eexists _, _, evs; (split; [done|]); simpl;
    repeat split; try done; congruence.
Qed.

(** A failed delivery: the caller gets [None] and the status [Error: ...]. *)
Lemma run_async_failure c w e :
  loop (gui w) = true →
  delivery c w = inl e →
  ∃ w',
    GUI.run_async c w = (inr VNone, w') ∧
    status_bar (gui w') = "Error: " +:+ exn_str e ∧
    loop (gui w') = true ∧
    log w' = log (worked c w).
Proof.
  intros Hloop Hd. rewrite run_async_run, Hd by done.
  eexists. split; [done|]. simpl. repeat split; try done.
  by rewrite worked_loop.
Qed.

Lemma run_all_submits cs w :
  loop (gui w) = true →
  ∃ w', run_all cs w = (inr (), w') ∧
        loop (gui w') = true ∧
        submitted (log w') = submitted (log w) ++ cs.
Proof.
  revert w. induction cs as [|c cs IH]; intros w Hloop.
  - exists w. by rewrite app_nil_r.
  - destruct (run_async_returns c w Hloop) as (v & w1 & evs & Hrun & Hl1 & _ & Hlog & Hio).
    destruct (IH w1 Hl1) as (w' & Hall & Hl' & Hsub).
    exists w'. simpl. unfold mbind, M_bind. rewrite Hrun.
    repeat split; try done.
    rewrite Hsub, Hlog, submitted_app. simpl.
    rewrite (submitted_io evs Hio). by rewrite <- app_assoc.
Qed.

End Bridge.

(** ** The launcher *)

Section Launcher.

Lemma submitted_caller_view evs : submitted (caller_view evs) = submitted evs.
Proof.
  induction evs as [|[c|cl r|ms] evs IH]; simpl; [done | | done..].
  unfold submitted in *. simpl. by f_equal.
Qed.

Lemma launch_ids_attempts ids : launch_ids (attempts ids) = ids.
Proof.
  induction ids as [|app_id ids IH]; [done|].
  unfold launch_ids, attempts in *. simpl. by f_equal.
Qed.

Lemma launch_ids_caller_view evs : launch_ids (caller_view evs) = launch_ids evs.
Proof. unfold launch_ids. by rewrite submitted_caller_view. Qed.

Lemma update_status_run message w :
  GUI.update_status message w =
    (inr (), set_gui (GUI.set_status_bar message (gui w)) w).
Proof. reflexivity. Qed.

(** The loop over the candidates goes through all of them. *)
Lemma try_ids_run app_name ids w :
  loop (gui w) = true →
  ∃ w' evs,
    GUI.try_ids app_name ids w = (inr (), w') ∧
    loop (gui w') = true ∧
    log w' = log w ++ evs ∧
    caller_view evs = attempts ids.
Proof.
  revert w. induction ids as [|app_id ids IH]; intros w Hloop.
  - exists w, []. by rewrite app_nil_r.
  - destruct (run_async_returns (LaunchApp app_id) w Hloop)
      as (v & w1 & evs1 & Hrun & Hl1 & _ & Hlog1 & Hio1).
    set (w2 := add_log (Slept 500)
                 (set_gui (GUI.set_status_bar
                   ("Trying " +:+ app_name +:+ " with ID: " +:+ app_id) (gui w1)) w1)).
    destruct (IH w2) as (w' & evs & Hrest & Hl' & Hlog & Hview); [done|].
    exists w', (Submitted (LaunchApp app_id) :: evs1 ++ Slept 500 :: evs).
    repeat split; try done.
    + cbn [GUI.try_ids]. unfold try_except, mbind, M_bind. rewrite Hrun. simpl.
      exact Hrest.
    + rewrite Hlog. subst w2. simpl. rewrite Hlog1.
      repeat (rewrite <- app_assoc; simpl). done.
    + change (Submitted (LaunchApp app_id) :: evs1 ++ Slept 500 :: evs)
        with ([Submitted (LaunchApp app_id)] ++ evs1 ++ [Slept 500] ++ evs).
      rewrite !caller_view_app, (caller_view_io evs1 Hio1), Hview. done.
Qed.

(** Without a match the loop over the apps does nothing. *)
Lemma search_apps_none app_name apps w :
  Forall (λ app, ¬ entry_matches app_name app) apps →
  GUI.search_apps app_name apps w = (inr false, w).
Proof.
  induction 1 as [|app apps Hno _ IH]; [done|].
  cbn [GUI.search_apps].
  destruct (GUI.name_matches _ _) eqn:Hm; [|exact IH].
  by apply name_matches_spec in Hm.
Qed.

(** With a match the loop launches the first matching entry and leaves
    the launcher. *)
Lemma search_apps_first app_name pre app post w :
  loop (gui w) = true →
  Forall (λ a, ¬ entry_matches app_name a) pre →
  entry_matches app_name app →
  ∃ w' evs,
    GUI.search_apps app_name (pre ++ app :: post) w = (inr true, w') ∧
    log w' = log w ++ Submitted (LaunchApp (dict_get "id" "" app)) :: evs ∧
    Forall is_io evs ∧
    status_bar (gui w') =
      "Found and launching " +:+ app_name +:+ ": " +:+ dict_get "id" "" app.
Proof.
  intros Hloop Hpre Happ. induction Hpre as [|a pre Hno _ IH].
  - destruct (run_async_returns (LaunchApp (dict_get "id" "" app)) w Hloop)
      as (v & w1 & evs1 & Hrun & _ & _ & Hlog1 & Hio1).
    apply name_matches_spec in Happ.
    eexists _, evs1. simpl. rewrite Happ.
    unfold mbind, M_bind. rewrite Hrun. simpl. by repeat split.
  - destruct IH as (w' & evs & Hrun & Hrest).
    exists w', evs. split; [|done].
    simpl. destruct (GUI.name_matches _ _) eqn:Hm; [|exact Hrun].
    by apply name_matches_spec in Hm.
Qed.

(** The list of apps, as the launcher gets it from [run_async]. *)
Lemma run_async_get_apps w :
  loop (gui w) = true →
  ∃ v w' evs,
    GUI.run_async GetApps w = (inr v, w') ∧
    loop (gui w') = true ∧
    log w' = log w ++ Submitted GetApps :: evs ∧
    Forall is_io evs ∧
    (v = VNone ∨ ∃ apps, v = VApps apps).
Proof.
  intros Hloop.
  destruct (run_async_returns GetApps w Hloop) as (v & w' & evs & Hrun & Hl & _ & Hlog & Hio).
  exists v, w', evs. repeat split; try done.
  rewrite run_async_run in Hrun by done.
  destruct (delivery GetApps w) as [e|v0] eqn:Hd;
    injection Hrun as <- _; [by left|].
  right. unfold delivery in Hd. destruct (wait_elapses _ _ _); [done|].
  cbn [Remote.coroutine] in Hd. rewrite get_apps_run in Hd.
  destruct (client (session _)); simpl in Hd.
  - destruct (answer_get_apps _ _ _); [done|]. injection Hd as <-. by eexists.
  - injection Hd as <-. by eexists.
Qed.

End Launcher.

Section SmartLauncher.

(** Second tier: without a match in the list of apps, the launcher goes
    through the whole entry of [fallback_ids], or reports that there is
    none. *)
Lemma smart_launcher_fallback app_name w :
  loop (gui w) = true →
  no_catalog_match app_name w →
  ∃ w' evs,
    GUI.smart_launcher app_name w = (inr (), w') ∧
    log w' = log w ++ evs ∧
    caller_view evs =
      Submitted GetApps :: attempts (default [] (GUI.fallback_ids !! app_name)) ∧
    (GUI.fallback_ids !! app_name = None →
     status_bar (gui w') = "Could not find " +:+ app_name).
Proof.
  intros Hloop Hno.
  destruct (run_async_get_apps w Hloop) as (v & w1 & evs1 & Hrun & Hl1 & Hlog1 & Hio1 & Hv).
  assert (∀ B (k : bool → M B),
    ((if truthy v then
        match v with
        | VApps l => GUI.search_apps app_name l
        | _ => raise (TypeError "object is not iterable")
        end
      else mret false) ≫= k) w1 = k false w1) as Hscan.
  { intros B k. unfold mbind, M_bind, mret, M_ret.
    destruct Hv as [->|[apps ->]]; [done|].
    destruct (truthy (VApps apps)); [|done].
    rewrite search_apps_none; [done|]. apply Hno. by rewrite Hrun. }
  unfold GUI.smart_launcher, try_except.
  unfold mbind at 1, M_bind at 1. rewrite Hrun, Hscan.
  destruct (GUI.fallback_ids !! app_name) as [ids|] eqn:Hids.
  - destruct (try_ids_run app_name ids w1 Hl1) as (w' & evs & Htry & _ & Hlog & Hview).
    exists w', (Submitted GetApps :: evs1 ++ evs). rewrite Htry.
    repeat split; try done.
    + rewrite Hlog, Hlog1. by repeat (rewrite <- app_assoc; simpl).
    + change (Submitted GetApps :: evs1 ++ evs)
        with ([Submitted GetApps] ++ evs1 ++ evs).
      by rewrite !caller_view_app, (caller_view_io evs1 Hio1), Hview.
  - eexists _, (Submitted GetApps :: evs1).
    split; [apply update_status_run|].
    repeat split; try done.
    change (Submitted GetApps :: evs1) with ([Submitted GetApps] ++ evs1).
    by rewrite caller_view_app, (caller_view_io evs1 Hio1).
Qed.

(** First tier: the first entry that matches is launched, and nothing
    else is. *)
Lemma smart_launcher_catalog app_name pre app post w :
  fst (GUI.run_async GetApps w) = inr (VApps (pre ++ app :: post)) →
  Forall (λ a, ¬ entry_matches app_name a) pre →
  entry_matches app_name app →
  ∃ w' evs,
    GUI.smart_launcher app_name w = (inr (), w') ∧
    log w' = log w ++ evs ∧
    caller_view evs =
      [Submitted GetApps; Submitted (LaunchApp (dict_get "id" "" app))] ∧
    status_bar (gui w') =
      "Found and launching " +:+ app_name +:+ ": " +:+ dict_get "id" "" app.
Proof.
  intros Hget Hpre Happ.
  destruct (loop (gui w)) eqn:Hloop;
    [|rewrite run_async_no_loop in Hget by done; discriminate].
  destruct (run_async_returns GetApps w Hloop)
    as (v & w1 & evs1 & Hrun & Hl1 & _ & Hlog1 & Hio1).
  rewrite Hrun in Hget. simpl in Hget. injection Hget as ->.
  destruct (search_apps_first app_name pre app post w1 Hl1 Hpre Happ)
    as (w' & evs & Hsearch & Hlog & Hio & Hstatus).
  exists w', (Submitted GetApps :: evs1 ++
              Submitted (LaunchApp (dict_get "id" "" app)) :: evs).
  repeat split; try done.
  - unfold GUI.smart_launcher, try_except, mbind, M_bind. rewrite Hrun.
    assert (truthy (VApps (pre ++ app :: post)) = true) as -> by by destruct pre.
    by rewrite Hsearch.
  - rewrite Hlog, Hlog1. by repeat (rewrite <- app_assoc; simpl).
  - change (Submitted GetApps :: evs1 ++
            Submitted (LaunchApp (dict_get "id" "" app)) :: evs)
      with ([Submitted GetApps] ++ evs1 ++
            [Submitted (LaunchApp (dict_get "id" "" app))] ++ evs).
    by rewrite !caller_view_app, (caller_view_io evs1 Hio1), (caller_view_io evs Hio).
Qed.

Lemma fallback_ids_dom : dom GUI.fallback_ids = list_to_set canonical_names.
Proof. unfold GUI.fallback_ids. rewrite !dom_insert_L, dom_empty_L. set_solver. Qed.

Lemma fallback_ids_exact app_name :
  is_Some (GUI.fallback_ids !! app_name) ↔ app_name ∈ canonical_names.
Proof.
  rewrite <- elem_of_dom, fallback_ids_dom. apply elem_of_list_to_set.
Qed.

End SmartLauncher.

(** ** The session and its device operations *)

Section SessionClaims.

Import Examples.

(** C1, as the code has it: a device operation of a session that has no
    client object returns at once, without an error ([None], or the empty
    list for the list of apps) and without a request to the device; a
    request goes out only when the field [client] is set. *)
Theorem operation_without_client c w :
  device_operation c = true →
  (client (session w) = None →
   Remote.coroutine c w = (inr (idle_value c), w)) ∧
  (log (snd (Remote.coroutine c w)) ≠ log w → is_Some (client (session w))).
Proof.
  intros Hop. split.
  - by apply operation_idle.
  - intros Hlog. destruct (client (session w)) eqn:Hcl; [done|].
    by rewrite operation_idle in Hlog.
Qed.

Lemma operation_without_client_witness :
  let w := started tv_ok in
  device_operation VolumeUp = true ∧
  client (session w) = None ∧
  Remote.coroutine VolumeUp w = (inr VNone, w).
Proof.
  intros w. split; [reflexivity|]. split; [reflexivity|].
  exact (proj1 (operation_without_client VolumeUp w eq_refl) eq_refl).
Defined.

(** C1, as stated, fails twice.  On the session of a program that has
    just started, which is not connected, raising the volume returns
    [None] and is no failure; and after a connection that failed, the
    session is still not connected, yet raising the volume sends the
    request to the device. *)
Lemma operation_on_unconnected_session :
  let fresh := started tv_ok in
  let failed := snd (Remote.connect_to_tv "192.168.1.100" None (started tv_off)) in
  connected (session fresh) = false ∧
  fst (Remote.coroutine VolumeUp fresh) = inr VNone ∧
  connected (session failed) = false ∧
  device_io (log (snd (Remote.coroutine VolumeUp failed))) =
    device_io (log failed) ++ [(the_client, ReqVolumeUp)].
Proof. vm_compute. repeat split. Qed.

(** C7, as the code has it: on a connected session, [mute_toggle] first
    reads the mute state; when the read returns, it then sets the inverse
    of what was read: these two requests, in this order, and no other.
    When the read raises, the read is the only request and the error of
    the read is what [mute_toggle] raises. *)
Theorem mute_toggle_requests w cl :
  client (session w) = Some cl →
  connected (session w) = true →
  match answer_get_muted (env w) (log w) cl with
  | inr muted =>
      log (snd (Remote.mute_toggle w)) =
        log w ++ [DeviceIO cl ReqGetMuted; DeviceIO cl (ReqSetMute (negb muted))]
  | inl detail =>
      log (snd (Remote.mute_toggle w)) = log w ++ [DeviceIO cl ReqGetMuted] ∧
      fst (Remote.mute_toggle w) = inl (DeviceError detail)
  end.
Proof.
  intros Hcl _. rewrite mute_toggle_run, Hcl.
  destruct (answer_get_muted _ _ _) as [detail|muted]; simpl; [done|].
  by rewrite <- app_assoc.
Qed.

Lemma mute_toggle_requests_witness :
  let w := after_connect tv_ok in
  client (session w) = Some the_client ∧
  connected (session w) = true ∧
  answer_get_muted (env w) (log w) the_client = inr false ∧
  log (snd (Remote.mute_toggle w)) =
    log w ++ [DeviceIO the_client ReqGetMuted; DeviceIO the_client (ReqSetMute true)].
Proof.
  intros w. split; [reflexivity|]. split; [reflexivity|]. split; [reflexivity|].
  exact (mute_toggle_requests w the_client eq_refl eq_refl).
Defined.

(** C7, as stated, fails: the session is connected, the television does
    not answer the read of the mute state, and [mute_toggle] has sent one
    request, the read, and no second one. *)
Lemma mute_toggle_stops_at_failed_read :
  let w := after_connect Scenarios.tv_unreadable in
  client (session w) = Some the_client ∧
  connected (session w) = true ∧
  fst (Remote.mute_toggle w) = inl (DeviceError "no answer") ∧
  device_io (log (snd (Remote.mute_toggle w))) =
    device_io (log w) ++ [(the_client, ReqGetMuted)].
Proof. vm_compute. repeat split. Qed.

Lemma perform_all_client cs w cl :
  Forall (λ c, device_operation c = true) cs →
  client (session w) = Some cl →
  client (session (perform_all cs w)) = Some cl.
Proof.
  intros Hops. revert w. induction Hops as [|c cs Hc _ IH]; intros w Hcl; [done|].
  simpl. apply IH. destruct (operation_keeps_client c w Hc) as [Hk _].
  by rewrite Hk.
Qed.

(** C10, as the code has it: [connect_to_tv] stores the new client
    before it awaits the connection.  When the connection fails, the call
    returns [False], the field [client] holds the new client, and the flag
    [connected], the address and the key are what they were before the
    attempt: the flag is false for a session that was not connected, and
    stays true after an earlier connection.  Whatever device operations
    follow, each one sends a request to the new client. *)
Theorem failed_connect_is_not_atomic ip key w detail :
  answer_connect (env w) (log w) (WebOsClient ip key) = inl detail →
  let cl := WebOsClient ip key in
  let w' := snd (Remote.connect_to_tv ip key w) in
  fst (Remote.connect_to_tv ip key w) = inr (VBool false) ∧
  session w' = Remote.set_client (Some cl) (session w) ∧
  client (session w') = Some cl ∧
  connected (session w') = connected (session w) ∧
  ∀ cs c,
    Forall (λ c, device_operation c = true) cs →
    device_operation c = true →
    let w'' := perform_all cs w' in
    client (session w'') = Some cl ∧
    (connected (session w) = false → connected (session w'') = false) ∧
    ∃ r evs, log (snd (Remote.coroutine c w'')) = log w'' ++ DeviceIO cl r :: evs.
Proof.
  intros Hfail cl w'. subst cl w'.
  rewrite connect_to_tv_run, Hfail. simpl.
  split; [done|]. split; [done|]. split; [done|]. split; [done|].
  intros cs c Hcs Hc.
  set (w1 := add_log (DeviceIO (WebOsClient ip key) ReqConnect)
               (with_client (WebOsClient ip key) w)).
  pose proof (perform_all_client cs w1 (WebOsClient ip key) Hcs eq_refl) as Hk.
  split; [done|]. split.
  - intros Hconn.
    by destruct (perform_all_keeps_client cs w1 (WebOsClient ip key) Hcs eq_refl Hconn).
  - by apply operation_requests.
Qed.

Lemma failed_connect_is_not_atomic_witness :
  let w := started tv_off in
  let w' := snd (Remote.connect_to_tv "192.168.1.100" None w) in
  let w'' := perform_all [MuteToggle] w' in
  answer_connect (env w) (log w) the_client = inl "" ∧
  fst (Remote.connect_to_tv "192.168.1.100" None w) = inr (VBool false) ∧
  client (session w') = Some the_client ∧
  connected (session w') = false ∧
  ∃ r evs,
    log (snd (Remote.coroutine VolumeUp w'')) = log w'' ++ DeviceIO the_client r :: evs.
Proof.
  intros w w' w''.
  destruct (failed_connect_is_not_atomic "192.168.1.100" None w "" eq_refl)
    as (Hret & _ & Hcl & Hconn & Hnext).
  split; [reflexivity|]. split; [exact Hret|]. split; [exact Hcl|].
  split; [exact Hconn|].
  apply (Hnext [MuteToggle] VolumeUp); [repeat constructor | reflexivity].
Defined.

(** C10, as stated, fails: the session was connected to one television;
    a connection to an address where nothing answers then fails, and the
    session holds the new client while its flag [connected] is still
    true. *)
Lemma failed_reconnect_stays_connected :
  let w := snd (Remote.connect_to_tv "192.168.1.100" None (started Scenarios.tv_one_address)) in
  let w' := snd (Remote.connect_to_tv "10.0.0.9" None w) in
  connected (session w) = true ∧
  fst (Remote.connect_to_tv "10.0.0.9" None w) = inr (VBool false) ∧
  client (session w') = Some (WebOsClient "10.0.0.9" None) ∧
  connected (session w') = true.
Proof. vm_compute. repeat split. Qed.

End SessionClaims.

(** ** The bridge *)

Section BridgeClaims.

Import Examples.

(** C5, as the code has it: when the wait of ten seconds runs out,
    [run_async] returns [None] and sets the status to [Error: ] followed
    by the text of the exception, which is empty; an exception raised by
    the command is reported in the same way, [None] and the status
    [Error: ] with its text.  The command was handed to the worker once
    and is not handed to it again. *)
Theorem timeout_is_reported_as_error c w :
  loop (gui w) = true →
  (wait_elapses (env w) (log w) c = true →
   ∃ w', GUI.run_async c w = (inr VNone, w') ∧
         status_bar (gui w') = "Error: " ∧
         submitted (log w') = submitted (log w) ++ [c]) ∧
  (∀ e, wait_elapses (env w) (log w) c = false →
        fst (Remote.coroutine c (add_log (Submitted c) w)) = inl e →
   ∃ w', GUI.run_async c w = (inr VNone, w') ∧
         status_bar (gui w') = "Error: " +:+ exn_str e ∧
         submitted (log w') = submitted (log w) ++ [c]).
Proof.
  intros Hloop.
  assert (∀ e, delivery c w = inl e →
    ∃ w', GUI.run_async c w = (inr VNone, w') ∧
          status_bar (gui w') = "Error: " +:+ exn_str e ∧
          submitted (log w') = submitted (log w) ++ [c]) as Hfail.
  { intros e Hd.
    destruct (run_async_failure c w e Hloop Hd) as (w' & Hrun & Hstatus & _ & Hlog).
    exists w'. repeat split; try done.
    destruct (worked_log c w) as (evs & Hl & Hio).
    rewrite Hlog, Hl, submitted_app. simpl.
    by rewrite (submitted_io evs Hio). }
  split.
  - intros Hwait. apply (Hfail TimeoutError). unfold delivery. by rewrite Hwait.
  - intros e Hwait Hraise. apply Hfail. unfold delivery. by rewrite Hwait.
Qed.

Lemma timeout_is_reported_as_error_witness :
  let w := after_connect tv_sluggish in
  loop (gui w) = true ∧
  wait_elapses (env w) (log w) VolumeUp = true ∧
  ∃ w', GUI.run_async VolumeUp w = (inr VNone, w') ∧
        status_bar (gui w') = "Error: " ∧
        submitted (log w') = submitted (log w) ++ [VolumeUp].
Proof.
  intros w. split; [reflexivity|]. split; [reflexivity|].
  exact (proj1 (timeout_is_reported_as_error VolumeUp w eq_refl) eq_refl).
Defined.

(** C5, as stated, fails: the caller of [run_async] cannot tell a wait
    that ran out from an error of the device.  On one television raising
    the volume takes too long, on the other it is refused with an empty
    message; the caller gets the same value, and the same object with the
    same status, after the same events. *)
Lemma timeout_looks_like_device_error :
  let w1 := after_connect tv_sluggish in
  let w2 := after_connect tv_refusing in
  delivery VolumeUp w1 = inl TimeoutError ∧
  delivery VolumeUp w2 = inl (DeviceError "") ∧
  gui w1 = gui w2 ∧ log w1 = log w2 ∧
  fst (GUI.run_async VolumeUp w1) = fst (GUI.run_async VolumeUp w2) ∧
  gui (snd (GUI.run_async VolumeUp w1)) = gui (snd (GUI.run_async VolumeUp w2)) ∧
  log (snd (GUI.run_async VolumeUp w1)) = log (snd (GUI.run_async VolumeUp w2)).
Proof. vm_compute. repeat split. Qed.

(** C6: a command whose coroutine raises, or whose result does not
    arrive in time, does not make [run_async] raise: the caller gets
    [None] and the status [Error: ...].  The loop of the worker is still
    there, the next command runs on it, and so does every list of
    commands that follows, whichever of them fail. *)
Theorem failure_is_reported_and_worker_goes_on c w e :
  loop (gui w) = true →
  delivery c w = inl e →
  ∃ w',
    GUI.run_async c w = (inr VNone, w') ∧
    status_bar (gui w') = "Error: " +:+ exn_str e ∧
    loop (gui w') = true ∧
    (∀ c2, log (snd (GUI.run_async c2 w')) =
           log (snd (Remote.coroutine c2 (add_log (Submitted c2) w')))) ∧
    (∀ cs, ∃ w'', run_all cs w' = (inr (), w'') ∧
                  loop (gui w'') = true ∧
                  submitted (log w'') = submitted (log w') ++ cs).
Proof.
  intros Hloop Hd.
  destruct (run_async_failure c w e Hloop Hd) as (w' & Hrun & Hstatus & Hl & _).
  exists w'. repeat split; try done.
  - intros c2. rewrite run_async_run by done. fold (worked c2 w').
    by destruct (delivery c2 w').
  - intros cs. by apply run_all_submits.
Qed.

Lemma failure_is_reported_and_worker_goes_on_witness :
  let w := after_connect tv_off in
  loop (gui w) = true ∧
  delivery VolumeUp w = inl (DeviceError "") ∧
  ∃ w',
    GUI.run_async VolumeUp w = (inr VNone, w') ∧
    status_bar (gui w') = "Error: " ∧
    loop (gui w') = true ∧
    ∃ w'', run_all [MuteToggle; NavHome] w' = (inr (), w'') ∧
           submitted (log w'') = submitted (log w') ++ [MuteToggle; NavHome].
Proof.
  intros w. split; [reflexivity|]. split; [reflexivity|].
  destruct (failure_is_reported_and_worker_goes_on VolumeUp w (DeviceError "")
              eq_refl eq_refl) as (w' & Hrun & Hstatus & Hl & _ & Hall).
  exists w'. split; [exact Hrun|]. split; [exact Hstatus|]. split; [exact Hl|].
  destruct (Hall [MuteToggle; NavHome]) as (w'' & Hcs & _ & Hsub).
  exists w''. split; [exact Hcs | exact Hsub].
Defined.

End BridgeClaims.

(** ** The launcher and its two tiers *)

Section LauncherClaims.

Import Examples.

(** C3: the launcher goes through the list of apps in order; an entry
    matches exactly when the lower-cased name occurs in the lower-cased
    title or the title in the name; and the first entry that matches is
    the one launched: its identifier alone is handed to the worker, and no
    identifier of the table is. *)
Theorem first_catalog_match_is_launched app_name pre app post w :
  fst (GUI.run_async GetApps w) = inr (VApps (pre ++ app :: post)) →
  Forall (λ a, ¬ entry_matches app_name a) pre →
  entry_matches app_name app →
  (∀ a : App,
     GUI.name_matches app_name (PyStr.lower (dict_get "title" "" a)) = true
     ↔ entry_matches app_name a) ∧
  ∃ w',
    GUI.launch_app_smart app_name w = (inr (), w') ∧
    launch_ids (log w') = launch_ids (log w) ++ [dict_get "id" "" app] ∧
    status_bar (gui w') =
      "Found and launching " +:+ app_name +:+ ": " +:+ dict_get "id" "" app.
Proof.
  intros Hget Hpre Happ. split; [intros a; apply name_matches_spec|].
  destruct (smart_launcher_catalog app_name pre app post w Hget Hpre Happ)
    as (w' & evs & Hrun & Hlog & Hview & Hstatus).
  exists w'. repeat split; try done.
  by rewrite Hlog, launch_ids_app, <- (launch_ids_caller_view evs), Hview.
Qed.

Lemma first_catalog_match_is_launched_witness :
  let w := after_connect tv_prime in
  fst (GUI.run_async GetApps w) = inr (VApps ([news] ++ prime :: [])) ∧
  Forall (λ a, ¬ entry_matches "Prime Video" a) [news] ∧
  entry_matches "Prime Video" prime ∧
  ∃ w',
    GUI.launch_app_smart "Prime Video" w = (inr (), w') ∧
    launch_ids (log w') = launch_ids (log w) ++ ["x"] ∧
    status_bar (gui w') = "Found and launching Prime Video: x".
Proof.
  intros w.
  assert (Forall (λ a, ¬ entry_matches "Prime Video" a) [news]) as Hpre.
  { repeat constructor. intros Hm%name_matches_spec. vm_compute in Hm. discriminate. }
  assert (entry_matches "Prime Video" prime) as Happ.
  { apply name_matches_spec. reflexivity. }
  split; [reflexivity|]. split; [exact Hpre|]. split; [exact Happ|].
  exact (proj2 (first_catalog_match_is_launched
                  "Prime Video" [news] prime [] w eq_refl Hpre Happ)).
Defined.

(** C4: when no entry of the list of apps matches, or there is no list,
    the name is looked up in the table as it is; the launcher goes through
    the whole entry in its order, and through nothing when the table has
    no such name, which it reports.  The names of the table are the eleven
    canonical ones, and the entry of [ESPN] is the one given. *)
Theorem fallback_is_the_whole_entry app_name w :
  loop (gui w) = true →
  no_catalog_match app_name w →
  (∃ w',
     GUI.launch_app_smart app_name w = (inr (), w') ∧
     launch_ids (log w') =
       launch_ids (log w) ++ default [] (GUI.fallback_ids !! app_name) ∧
     (GUI.fallback_ids !! app_name = None →
      status_bar (gui w') = "Could not find " +:+ app_name)) ∧
  (is_Some (GUI.fallback_ids !! app_name) ↔ app_name ∈ canonical_names) ∧
  GUI.fallback_ids !! "ESPN" = Some ["espn"; "com.espn.webostv"; "com.espn.app"].
Proof.
  intros Hloop Hno. split; [|split; [apply fallback_ids_exact | reflexivity]].
  destruct (smart_launcher_fallback app_name w Hloop Hno)
    as (w' & evs & Hrun & Hlog & Hview & Hstatus).
  exists w'. repeat split; try done.
  rewrite Hlog, launch_ids_app, <- (launch_ids_caller_view evs), Hview.
  change (Submitted GetApps :: attempts ?ids)
    with ([Submitted GetApps] ++ attempts ids).
  by rewrite launch_ids_app, launch_ids_attempts.
Qed.

Lemma no_apps_no_match app_name w :
  fst (GUI.run_async GetApps w) = inr (VApps []) → no_catalog_match app_name w.
Proof. intros Hget apps Happs. rewrite Hget in Happs. by injection Happs as <-. Qed.

Lemma fallback_is_the_whole_entry_witness :
  let w := after_connect tv_ok in
  loop (gui w) = true ∧
  no_catalog_match "ESPN" w ∧
  ∃ w',
    GUI.launch_app_smart "ESPN" w = (inr (), w') ∧
    launch_ids (log w') =
      launch_ids (log w) ++ ["espn"; "com.espn.webostv"; "com.espn.app"].
Proof.
  intros w.
  assert (no_catalog_match "ESPN" w) as Hno by (by apply no_apps_no_match).
  split; [reflexivity|]. split; [exact Hno|].
  destruct (proj1 (fallback_is_the_whole_entry "ESPN" w eq_refl Hno))
    as (w' & Hrun & Hids & _).
  exists w'. split; [exact Hrun | exact Hids].
Defined.

(** C2, as the code has it: the launcher hands every candidate of the
    entry to the worker, in the order of the entry, and pauses after each
    one; it does not stop at a candidate that the device accepted. *)
Theorem fallback_tries_every_candidate app_name ids w :
  loop (gui w) = true →
  no_catalog_match app_name w →
  GUI.fallback_ids !! app_name = Some ids →
  ∃ w' evs,
    GUI.launch_app_smart app_name w = (inr (), w') ∧
    log w' = log w ++ evs ∧
    caller_view evs = Submitted GetApps :: attempts ids.
Proof.
  intros Hloop Hno Hids.
  destruct (smart_launcher_fallback app_name w Hloop Hno)
    as (w' & evs & Hrun & Hlog & Hview & _).
  exists w', evs. rewrite Hids in Hview. by repeat split.
Qed.

Lemma fallback_tries_every_candidate_witness :
  let w := after_connect tv_ok in
  loop (gui w) = true ∧
  no_catalog_match "ESPN" w ∧
  GUI.fallback_ids !! "ESPN" = Some ["espn"; "com.espn.webostv"; "com.espn.app"] ∧
  ∃ w' evs,
    GUI.launch_app_smart "ESPN" w = (inr (), w') ∧
    log w' = log w ++ evs ∧
    caller_view evs =
      [Submitted GetApps;
       Submitted (LaunchApp "espn"); Slept 500;
       Submitted (LaunchApp "com.espn.webostv"); Slept 500;
       Submitted (LaunchApp "com.espn.app"); Slept 500].
Proof.
  intros w.
  assert (no_catalog_match "ESPN" w) as Hno by (by apply no_apps_no_match).
  split; [reflexivity|]. split; [exact Hno|]. split; [reflexivity|].
  exact (fallback_tries_every_candidate "ESPN"
           ["espn"; "com.espn.webostv"; "com.espn.app"] w eq_refl Hno eq_refl).
Defined.

(** C2, as stated, fails: the television accepts the first candidate of
    [ESPN], and the launcher still sends the second and the third. *)
Lemma launcher_goes_on_after_success :
  let w := after_connect tv_ok in
  let w1 := snd (GUI.run_async GetApps w) in
  fst (GUI.run_async GetApps w) = inr (VApps []) ∧
  GUI.fallback_ids !! "ESPN" = Some ["espn"; "com.espn.webostv"; "com.espn.app"] ∧
  delivery (LaunchApp "espn") w1 = inr VNone ∧
  device_io (log (snd (GUI.launch_app_smart "ESPN" w))) =
    device_io (log w) ++
    [(the_client, ReqGetApps);
     (the_client, ReqLaunchApp "espn");
     (the_client, ReqLaunchApp "com.espn.webostv");
     (the_client, ReqLaunchApp "com.espn.app")].
Proof. vm_compute. repeat split. Qed.

End LauncherClaims.

(** ** The pairing key and the configuration file *)

Section PairingKey.

Import Examples.

Lemma keeps_ret {A} (x : A) : keeps_key (mret x).
Proof. intros w. split; [done|]. exists []. by rewrite app_nil_r. Qed.

Lemma keeps_raise {A} e : keeps_key (raise e : M A).
Proof. intros w. split; [done|]. exists []. by rewrite app_nil_r. Qed.

Lemma keeps_bind {A B} (m : M A) (k : A → M B) :
  keeps_key m → (∀ x, keeps_key (k x)) → keeps_key (m ≫= k).
Proof.
  intros Hm Hk w. unfold mbind, M_bind.
  destruct (Hm w) as (H1 & evs1 & Hl1).
  destruct (m w) as [[e|x] w1]; simpl in *; [by eauto|].
  destruct (Hk x w1) as (H2 & evs2 & Hl2).
  split; [congruence|]. exists (evs1 ++ evs2). by rewrite Hl2, Hl1, app_assoc.
Qed.

Lemma keeps_modify_gui f :
  (∀ g, saved_client_key (f g) = saved_client_key g) → keeps_key (modify_gui f).
Proof. intros Hf w. split; [apply Hf|]. exists []. by rewrite app_nil_r. Qed.

Lemma keeps_save_config : keeps_key GUI.save_config.
Proof.
  intros w. unfold GUI.save_config, modify. simpl.
  destruct (fs_writable w); (split; [done|]); exists []; by rewrite app_nil_r.
Qed.

(** Nothing the bridge does touches [saved_client_key]. *)
Lemma keeps_run_async c : keeps_key (GUI.run_async c).
Proof.
  intros w. destruct (loop (gui w)) eqn:Hloop.
  - split.
    + rewrite run_async_run by done. destruct (worked_step c w) as (Hg & _).
      destruct (delivery c w); simpl; by rewrite Hg.
    + destruct (run_async_returns c w Hloop) as (v & w' & evs & -> & _ & _ & Hlog & _).
      by eexists.
  - rewrite run_async_no_loop by done. apply (keeps_ret VNone).
Qed.

Local Ltac keeps :=
  repeat first
    [ apply keeps_ret | apply keeps_raise | apply keeps_run_async
    | apply keeps_save_config | by apply keeps_modify_gui
    | apply keeps_bind; [|intros ?]
    | match goal with |- keeps_key (if ?b then _ else _) => destruct b end
    | match goal with |- keeps_key (match ?v with _ => _ end) => destruct v end ].

Lemma keeps_refresh_apps : keeps_key GUI.refresh_apps.
Proof. unfold GUI.refresh_apps, GUI.update_status. keeps. Qed.

(** Within one run every connection is attempted with the key that
    [load_config] read: [connect] hands [connect_to_tv] the value of
    [saved_client_key], whatever key the session holds, and leaves
    [saved_client_key] as it was. *)
Lemma connect_supplies_saved_key ip w :
  loop (gui w) = true →
  saved_client_key (gui (snd (GUI.connect ip w))) = saved_client_key (gui w) ∧
  ∃ evs, log (snd (GUI.connect ip w)) =
         log w ++ Submitted (ConnectToTv ip (default None (saved_client_key (gui w)))) :: evs.
Proof.
  intros Hloop. set (key := default None (saved_client_key (gui w))).
  destruct (keeps_run_async (ConnectToTv ip key) w) as (Hkey & _).
  destruct (run_async_returns (ConnectToTv ip key) w Hloop)
    as (v & w1 & evs1 & Hrun & _ & _ & Hlog1 & _).
  assert (∃ m : M unit, GUI.connect ip w = m w1 ∧ keeps_key m) as (m & -> & Hrest).
  { eexists. split.
    - unfold GUI.connect. unfold mbind at 1, M_bind at 1, get_world. fold key.
      unfold mbind at 1, M_bind at 1. rewrite Hrun. reflexivity.
    - pose proof keeps_refresh_apps. unfold GUI.update_status. keeps. }
  rewrite Hrun in Hkey. simpl in Hkey.
  destruct (Hrest w1) as (Hkey' & evs & Hlog).
  split; [congruence|]. exists (evs1 ++ evs).
  rewrite Hlog, Hlog1. by repeat (rewrite <- app_assoc; simpl).
Qed.

(** C8 at work.  The program starts without a configuration file and
    pairs with the television, which hands out the key [K]: the session
    holds the key and the file holds it.  The next click on
    [Connect to TV] connects without a key all the same, since
    [saved_client_key] is still what [load_config] read at start-up.
    Only a program that is started again reads the key and connects
    with it. *)
Lemma reconnect_does_not_supply_new_key :
  let w0 := started tv_ok in
  let w1 := snd (GUI.connect_tv w0) in
  let w2 := snd (GUI.connect_tv w1) in
  let w3 := snd (GUI.connect_tv (restarted w1)) in
  client_key (session w1) = Some "K" ∧
  config_file w1 =
    Some {| cfg_tv_ip := Some "192.168.1.100"; cfg_client_key := Some "K" |} ∧
  saved_client_key (gui w1) = Some None ∧
  submitted (log w2) =
    submitted (log w1) ++ [ConnectToTv "192.168.1.100" None; GetApps] ∧
  submitted (log w3) = [ConnectToTv "192.168.1.100" (Some "K"); GetApps].
Proof. vm_compute. repeat split. Qed.

End PairingKey.

(** ** The double click on the list of apps *)

Section DoubleClick.

Import Examples.

Lemma no_launch_app : "launch_app" ∉ GUI.attributes.
Proof. apply (bool_decide_unpack _). vm_compute. exact I. Qed.

Lemma getattr_launch_app w :
  GUI.getattr "launch_app" w =
    (inl (AttributeError "'TVRemoteGUI' object has no attribute 'launch_app'"), w).
Proof.
  unfold GUI.getattr. destruct (decide _) as [Hin|_]; [|reflexivity].
  by apply no_launch_app in Hin.
Qed.

(** C9: [TVRemoteGUI] has no attribute [launch_app]; so the handler of
    a double click on an item of the list raises [AttributeError], and
    neither a command for the worker nor a request to the device comes
    of it. *)
Theorem double_click_raises_attribute_error w i rest :
  curselection (gui w) = i :: rest →
  ("launch_app" ∉ GUI.attributes) ∧
  GUI.launch_selected_app w =
    (inl (AttributeError "'TVRemoteGUI' object has no attribute 'launch_app'"), w).
Proof.
  intros Hsel. split; [apply no_launch_app|].
  unfold GUI.launch_selected_app, get_world, mbind, M_bind.
  by rewrite Hsel, getattr_launch_app.
Qed.

Lemma double_click_raises_attribute_error_witness :
  let w := click 1 (after_connect tv_prime) in
  apps_listbox (gui w) = ["News"; "Amazon Prime Video"] ∧
  curselection (gui w) = [1] ∧
  GUI.launch_selected_app w =
    (inl (AttributeError "'TVRemoteGUI' object has no attribute 'launch_app'"), w).
Proof.
  intros w. split; [reflexivity|]. split; [reflexivity|].
  exact (proj2 (double_click_raises_attribute_error w 1 [] eq_refl)).
Defined.

End DoubleClick.

(** ** More on the session *)

Section SessionProperties.

Import Examples Scenarios.

Local Ltac each_command c :=
  destruct c;
  unfold Remote.coroutine, Remote.volume_up, Remote.volume_down, Remote.power_off,
    Remote.launch_app, Remote.nav_up, Remote.nav_down, Remote.nav_left,
    Remote.nav_right, Remote.nav_ok, Remote.nav_home, Remote.nav_back,
    Remote.media_play, Remote.media_pause, Remote.media_stop,
    Remote.media_rewind, Remote.media_fastforward.

Lemma plain_is_operation c : plain_operation c = true → device_operation c = true.
Proof. by destruct c. Qed.

Lemma plain_session c w :
  plain_operation c = true → session (snd (Remote.coroutine c w)) = session w.
Proof.
  intros Hop. each_command c; try discriminate;
    try (rewrite guarded_run; by destruct (client (session w)) eqn:Hc).
  - rewrite mute_toggle_run. destruct (client (session w)) eqn:Hc; [|done].
    by destruct (answer_get_muted _ _ _).
  - rewrite get_apps_run. by destruct (client (session w)) eqn:Hc.
Qed.

(** Volume, mute, power, launch, the buttons and the list of apps never
    change the session, whatever the device answers: after [power_off]
    the session is as connected as before. *)
Theorem operation_leaves_session c w :
  plain_operation c = true →
  session (snd (Remote.coroutine c w)) = session w.
Proof. apply plain_session. Qed.

Lemma operation_leaves_session_witness :
  let w := after_connect tv_ok in
  plain_operation PowerOff = true ∧
  connected (session w) = true ∧
  session (snd (Remote.coroutine PowerOff w)) = session w.
Proof.
  intros w. split; [reflexivity|]. split; [reflexivity|].
  exact (operation_leaves_session PowerOff w eq_refl).
Defined.




(** The key the session holds changes only when a connection succeeds,
    and then it is the key the device handed out; no other command, no
    failed connection and no disconnection discards it. *)
Theorem client_key_changes_only_on_connect c w :
  client_key (session (snd (Remote.coroutine c w))) = client_key (session w) ∨
  ∃ ip key,
    c = ConnectToTv ip key ∧
    answer_connect (env w) (log w) (WebOsClient ip key) =
      inr (client_key (session (snd (Remote.coroutine c w)))).
Proof.
  destruct (plain_operation c) eqn:Hop.
  - left. by rewrite plain_session.
  - destruct c; try discriminate.
    + simpl. rewrite connect_to_tv_run.
      destruct (answer_connect _ _ _) as [detail|k] eqn:Hans; [by left|].
      right. by exists ip_address, key.
    + left. simpl. rewrite disconnect_run.
      destruct (client (session w)) eqn:Hcl; [|done].
      by destruct (answer _ _ _ _).
Qed.

(** [disconnect] on a session with a client sends one request.  When the
    device accepts it, only the flag [connected] is cleared: client,
    address and key stay.  When the device raises, the error comes out and
    the session is as it was, still flagged as connected. *)
Theorem disconnect_outcome w cl :
  client (session w) = Some cl →
  let r := Remote.disconnect w in
  log (snd r) = log w ++ [DeviceIO cl ReqDisconnect] ∧
  match answer (env w) (log w) cl ReqDisconnect with
  | None =>
      fst r = inr VNone ∧
      session (snd r) = Remote.set_connected false (session w)
  | Some detail =>
      fst r = inl (DeviceError detail) ∧ session (snd r) = session w
  end.
Proof.
  intros Hcl r. subst r. rewrite disconnect_run, Hcl.
  by destruct (answer _ _ _ _).
Qed.

Lemma disconnect_outcome_witness :
  let w := after_connect tv_stubborn in
  client (session w) = Some the_client ∧
  fst (Remote.disconnect w) = inl (DeviceError "refused") ∧
  connected (session (snd (Remote.disconnect w))) = true.
Proof.
  intros w. split; [reflexivity|].
  destruct (disconnect_outcome w the_client eq_refl) as [_ Hout].
  change (answer (env w) (log w) the_client ReqDisconnect) with (Some "refused") in Hout.
  destruct Hout as [Hret Hs]. split; [exact Hret|]. by rewrite Hs.
Defined.

(** After a disconnection the session still holds its client, so every
    device operation that follows sends its request to the television all
    the same. *)
Theorem operations_after_disconnect w cl cs c :
  client (session w) = Some cl →
  answer (env w) (log w) cl ReqDisconnect = None →
  Forall (λ c, device_operation c = true) cs →
  device_operation c = true →
  let w' := snd (Remote.disconnect w) in
  let w'' := perform_all cs w' in
  connected (session w') = false ∧
  client_key (session w') = client_key (session w) ∧
  ∃ r evs, log (snd (Remote.coroutine c w'')) = log w'' ++ DeviceIO cl r :: evs.
Proof.
  intros Hcl Hans Hcs Hc w' w''.
  assert (session w' = Remote.set_connected false (session w)) as Hs.
  { subst w'. by rewrite disconnect_run, Hcl, Hans. }
  split; [by rewrite Hs|]. split; [by rewrite Hs|].
  apply operation_requests; [done|].
  apply perform_all_keeps_client; [done| |]; by rewrite Hs.
Qed.

Lemma operations_after_disconnect_witness :
  let w := after_connect tv_ok in
  let w' := snd (Remote.disconnect w) in
  client (session w) = Some the_client ∧
  answer (env w) (log w) the_client ReqDisconnect = None ∧
  connected (session w') = false ∧
  ∃ r evs,
    log (snd (Remote.coroutine VolumeUp (perform_all [NavHome] w'))) =
      log (perform_all [NavHome] w') ++ DeviceIO the_client r :: evs.
Proof.
  intros w w'. split; [reflexivity|]. split; [reflexivity|].
  destruct (operations_after_disconnect w the_client [NavHome] VolumeUp
              eq_refl eq_refl) as (Hconn & _ & Hio);
    [repeat constructor | reflexivity |].
  split; [exact Hconn | exact Hio].
Defined.

(** When the mute state cannot be read, [mute_toggle] has sent the read
    only: the error of the read comes out and no mute state is set. *)
Theorem mute_toggle_read_fails w cl detail :
  client (session w) = Some cl →
  answer_get_muted (env w) (log w) cl = inl detail →
  Remote.mute_toggle w =
    (inl (DeviceError detail), add_log (DeviceIO cl ReqGetMuted) w).
Proof. intros Hcl Hread. by rewrite mute_toggle_run, Hcl, Hread. Qed.

Lemma mute_toggle_read_fails_witness :
  let w := after_connect tv_unreadable in
  client (session w) = Some the_client ∧
  answer_get_muted (env w) (log w) the_client = inl "no answer" ∧
  Remote.mute_toggle w =
    (inl (DeviceError "no answer"), add_log (DeviceIO the_client ReqGetMuted) w).
Proof.
  intros w. split; [reflexivity|]. split; [reflexivity|].
  exact (mute_toggle_read_fails w the_client "no answer" eq_refl eq_refl).
Defined.

End SessionProperties.

(** ** More on the bridge and the buttons *)

Section ButtonProperties.

Import Examples Scenarios.

Lemma front_end_kept_refl w : front_end_kept w w.
Proof. by repeat split. Qed.

Lemma front_end_kept_trans w1 w2 w3 :
  front_end_kept w1 w2 → front_end_kept w2 w3 → front_end_kept w1 w3.
Proof.
  unfold front_end_kept. intros (?&?&?&?&?&?&?&?&?) (?&?&?&?&?&?&?&?&?).
  repeat split; congruence.
Qed.

(** What the bridge does to the front end for a command that is no
    connection and no disconnection: at most the status bar changes. *)
Lemma run_async_kept c w :
  plain_operation c = true →
  front_end_kept w (snd (GUI.run_async c w)).
Proof.
  intros Hop. destruct (loop (gui w)) eqn:Hloop;
    [|rewrite run_async_no_loop by done; apply front_end_kept_refl].
  rewrite run_async_run by done.
  destruct (worked_step c w) as (Hg & He & Hc & Hf & _).
  assert (session (worked c w) = session w) as Hs.
  { unfold worked. by rewrite plain_session. }
  assert (front_end_kept w (worked c w)) as Hkept.
  { unfold front_end_kept. rewrite Hs. unfold session in Hs.
    rewrite Hg, He, Hc, Hf. by repeat split. }
  destruct (delivery c w); [|done].
  destruct Hkept as (?&?&?&?&?&?&?&?&?). by repeat split.
Qed.

Lemma run_async_total c w : ∃ v w', GUI.run_async c w = (inr v, w').
Proof.
  destruct (loop (gui w)) eqn:Hloop.
  - destruct (run_async_returns c w Hloop) as (v & w' & _ & Hrun & _). eauto.
  - rewrite run_async_no_loop by done. eauto.
Qed.

(** The shape of a button handler. *)
Lemma handler_run c message w :
  loop (gui w) = true →
  plain_operation c = true →
  ∃ w',
    (GUI.run_async c;; GUI.update_status message) w = (inr (), w') ∧
    status_bar (gui w') = message ∧
    submitted (log w') = submitted (log w) ++ [c] ∧
    session w' = session w.
Proof.
  intros Hloop Hop.
  destruct (run_async_returns c w Hloop) as (v & w1 & evs & Hrun & _ & _ & Hlog & Hio).
  pose proof (run_async_kept c w Hop) as (Hs & _). rewrite Hrun in Hs.
  eexists. unfold mbind, M_bind. rewrite Hrun, update_status_run.
  repeat split; try done. simpl.
  rewrite Hlog, submitted_app. simpl. by rewrite (submitted_io evs Hio).
Qed.

(** A button always ends with its own status text: the handler hands its
    command to the worker once, leaves the session alone and then writes
    that text over whatever [run_async] reported, also when the command
    failed or timed out. *)
Theorem button_reports_success handler c message w :
  (handler, c, message) ∈ button_handlers →
  loop (gui w) = true →
  ∃ w',
    handler w = (inr (), w') ∧
    status_bar (gui w') = message ∧
    submitted (log w') = submitted (log w) ++ [c] ∧
    session w' = session w.
Proof.
  intros Hin Hloop. unfold button_handlers in Hin.
  repeat (apply elem_of_cons in Hin as [[= -> -> ->]|Hin];
          [by apply handler_run|]).
  by apply elem_of_nil in Hin.
Qed.

Lemma button_reports_success_witness :
  let w := after_connect tv_stubborn in
  (GUI.volume_up, VolumeUp, "Volume up") ∈ button_handlers ∧
  loop (gui w) = true ∧
  delivery VolumeUp w = inl (DeviceError "refused") ∧
  ∃ w',
    GUI.volume_up w = (inr (), w') ∧
    status_bar (gui w') = "Volume up" ∧
    submitted (log w') = submitted (log w) ++ [VolumeUp].
Proof.
  intros w.
  assert ((GUI.volume_up, VolumeUp, "Volume up") ∈ button_handlers) as Hin.
  { unfold button_handlers. repeat (apply elem_of_cons; first [by left | right]). }
  split; [exact Hin|]. split; [reflexivity|]. split; [reflexivity|].
  destruct (button_reports_success GUI.volume_up VolumeUp "Volume up" w Hin eq_refl)
    as (w' & Hrun & Hstatus & Hsub & _).
  exists w'. split; [exact Hrun|]. split; [exact Hstatus | exact Hsub].
Defined.

(** [power_off]: when the user declines the dialog nothing happens at
    all; when the user confirms, the command goes to the worker once, the
    status says [TV powered off] whatever came of it, and the session stays
    as it was, connected if it was connected. *)
Theorem power_off_asks_first w :
  GUI.power_off false w = (inr (), w) ∧
  (loop (gui w) = true →
   ∃ w',
     GUI.power_off true w = (inr (), w') ∧
     status_bar (gui w') = "TV powered off" ∧
     submitted (log w') = submitted (log w) ++ [PowerOff] ∧
     session w' = session w).
Proof. split; [done|]. intros Hloop. by apply handler_run. Qed.

Lemma power_off_asks_first_witness :
  let w := after_connect tv_ok in
  loop (gui w) = true ∧
  ∃ w',
    GUI.power_off true w = (inr (), w') ∧
    status_bar (gui w') = "TV powered off" ∧
    connected (session w') = true.
Proof.
  intros w. split; [reflexivity|].
  destruct (proj2 (power_off_asks_first w) eq_refl) as (w' & Hrun & Hstatus & _ & Hs).
  exists w'. split; [exact Hrun|]. split; [exact Hstatus|]. by rewrite Hs.
Defined.

End ButtonProperties.

(** ** The configuration file and the connection *)

Section ConnectionProperties.

Import Examples Scenarios.

Lemma append_empty_r s : s +:+ "" = s.
Proof. induction s as [|a s IH]; [done|]. rewrite append_cons. by f_equal. Qed.

Lemma save_then_init w e writable :
  fs_writable w = true →
  let w' := GUI.init e (config_file (snd (GUI.save_config w))) writable in
  ip_entry (gui w') = ip_entry (gui w) ∧
  saved_client_key (gui w') = Some (client_key (session w)) ∧
  loop (gui w') = true.
Proof.
  intros Hw. unfold GUI.save_config, modify, GUI.init. simpl. rewrite Hw. simpl.
  split; [apply append_empty_r | done].
Qed.

(** A configuration saved by [save_config] is read back by the next
    start of the program: the address entry shows the text that was in it,
    and [saved_client_key] is the key the session held. *)
Theorem config_round_trip w e writable :
  fs_writable w = true →
  let w' := GUI.init e (config_file (snd (GUI.save_config w))) writable in
  ip_entry (gui w') = ip_entry (gui w) ∧
  saved_client_key (gui w') = Some (client_key (session w)).
Proof.
  intros Hw w'. destruct (save_then_init w e writable Hw) as (Hip & Hkey & _).
  by split.
Qed.

Lemma config_round_trip_witness :
  let w := after_connect tv_ok in
  let w' := GUI.init tv_ok (config_file (snd (GUI.save_config w))) true in
  fs_writable w = true ∧
  ip_entry (gui w') = "192.168.1.100" ∧
  saved_client_key (gui w') = Some (Some "K").
Proof.
  intros w w'. split; [reflexivity|].
  exact (config_round_trip w tv_ok true eq_refl).
Defined.

(** At start-up nothing is sent anywhere.  The session is new, the loop
    is there, [saved_client_key] is set: to the key of the file, or to
    [None] when the file or its key is missing; the entry shows the address
    of the file, or [192.168.1.100] when the file or its address is
    missing. *)
Theorem start_up_state e file writable :
  let w := GUI.init e file writable in
  session w = Remote.init ∧
  loop (gui w) = true ∧
  saved_client_key (gui w) = Some (file ≫= cfg_client_key) ∧
  ip_entry (gui w) = default "192.168.1.100" (file ≫= cfg_tv_ip) ∧
  config_file w = file ∧
  submitted (log w) = [] ∧
  device_io (log w) = [].
Proof.
  destruct file as [[ip key]|]; simpl; repeat split; try done.
  apply append_empty_r.
Qed.

(** Save, close and start again: the first connection of the new run is
    attempted with the key the session held when the file was written. *)
Theorem restart_connects_with_saved_key w ip writable :
  fs_writable w = true →
  let w' := GUI.init (env w) (config_file (snd (GUI.save_config w))) writable in
  ∃ evs,
    log (snd (GUI.connect ip w')) =
      log w' ++ Submitted (ConnectToTv ip (client_key (session w))) :: evs.
Proof.
  intros Hw w'.
  destruct (save_then_init w (env w) writable Hw) as (_ & Hkey & Hloop).
  fold w' in Hkey, Hloop.
  destruct (connect_supplies_saved_key ip w' Hloop) as [_ (evs & Hlog)].
  exists evs. by rewrite Hlog, Hkey.
Qed.

Lemma restart_connects_with_saved_key_witness :
  let w := after_connect tv_ok in
  let w' := GUI.init (env w) (config_file (snd (GUI.save_config w))) true in
  fs_writable w = true ∧
  ∃ evs,
    log (snd (GUI.connect "192.168.1.100" w')) =
      log w' ++ Submitted (ConnectToTv "192.168.1.100" (Some "K")) :: evs.
Proof.
  intros w w'. split; [reflexivity|].
  exact (restart_connects_with_saved_key w "192.168.1.100" true eq_refl).
Defined.

Lemma lstrip_blank s : blank s = true → PyStr.lstrip s = "".
Proof.
  induction s as [|c s IH]; [done|]. simpl.
  intros [Hc Hs]%andb_true_iff. rewrite Hc. auto.
Qed.

Lemma strip_blank s : blank s = true → PyStr.strip s = "".
Proof. intros Hs. unfold PyStr.strip. rewrite (lstrip_blank s Hs). reflexivity. Qed.

(** With an address entry that is empty or holds white space only,
    [connect_tv] starts nothing: no command for the worker, the session and
    the widgets as they were. *)
Theorem connect_tv_blank_address w :
  blank (ip_entry (gui w)) = true →
  GUI.connect_tv w = (inr (), w).
Proof.
  intros Hblank. unfold GUI.connect_tv, get_world, mbind, M_bind.
  by rewrite strip_blank.
Qed.

Lemma connect_tv_blank_address_witness :
  let w := with_entry "   " (started tv_ok) in
  blank (ip_entry (gui w)) = true ∧ GUI.connect_tv w = (inr (), w).
Proof.
  intros w. split; [reflexivity|].
  exact (connect_tv_blank_address w eq_refl).
Defined.

(** The list of apps [refresh_apps] gets is a list or nothing. *)
Lemma get_apps_value w :
  ∃ v w', GUI.run_async GetApps w = (inr v, w') ∧
          (v = VNone ∨ ∃ apps, v = VApps apps).
Proof.
  destruct (loop (gui w)) eqn:Hloop.
  - destruct (run_async_get_apps w Hloop) as (v & w' & _ & Hrun & _ & _ & _ & Hv).
    eauto.
  - rewrite run_async_no_loop by done. eauto.
Qed.

(** [refresh_apps] never raises; it changes the list of apps, the
    selection and the status bar at most. *)
Lemma refresh_apps_returns w :
  ∃ w', GUI.refresh_apps w = (inr (), w') ∧ front_end_kept w w'.
Proof.
  destruct (get_apps_value w) as (v & w1 & Hrun & Hv).
  pose proof (run_async_kept GetApps w eq_refl) as Hkept. rewrite Hrun in Hkept.
  unfold GUI.refresh_apps, mbind, M_bind. rewrite Hrun.
  destruct Hv as [->|[apps ->]]; [by eexists|].
  destruct (truthy (VApps apps)); [|by eexists].
  eexists. split; [done|].
  destruct Hkept as (?&?&?&?&?&?&?&?&?). by repeat split.
Qed.

(** [connect_tv] with an address: the status and the button change, then
    the thread body runs. *)
Lemma connect_tv_run w :
  PyStr.strip (ip_entry (gui w)) ≠ "" →
  GUI.connect_tv w =
    GUI.connect (PyStr.strip (ip_entry (gui w)))
      (set_gui (GUI.set_connect_btn false
                  (GUI.set_status_bar "Connecting..." (gui w))) w).
Proof.
  intros Hip. unfold GUI.connect_tv, get_world. unfold mbind at 1, M_bind at 1.
  by destruct (PyStr.strip (ip_entry (gui w))).
Qed.

Lemma bind_run {A B} (m : M A) (k : A → M B) w x w' :
  m w = (inr x, w') → (m ≫= k) w = k x w'.
Proof. intros Hm. unfold mbind, M_bind. by rewrite Hm. Qed.

(** The thread body after a connection that was not reported as made. *)
Lemma connect_not_made ip w v w1 :
  GUI.run_async (ConnectToTv ip (default None (saved_client_key (gui w)))) w
    = (inr v, w1) →
  truthy v = false →
  GUI.connect ip w =
    (inr (),
     set_gui (GUI.set_connect_btn true
                (GUI.set_status_bar "Connection failed"
                   (GUI.set_status_label "Connection Failed" (gui w1)))) w1).
Proof.
  intros Hrun Hv. unfold GUI.connect, get_world. unfold mbind at 1, M_bind at 1.
  unfold mbind at 1, M_bind at 1. rewrite Hrun.
  unfold mbind at 1, M_bind at 1. by rewrite Hv.
Qed.

(** The thread body after a connection that was reported as made. *)
Lemma connect_made ip w v w1 :
  GUI.run_async (ConnectToTv ip (default None (saved_client_key (gui w)))) w
    = (inr v, w1) →
  truthy v = true →
  let w2 := snd (GUI.save_config
                   (set_gui (GUI.set_status_bar "Connected successfully"
                      (GUI.set_status_label ("Connected to " +:+ ip) (gui w1))) w1)) in
  ∃ w3,
    GUI.connect ip w = (inr (), set_gui (GUI.set_connect_btn true (gui w3)) w3) ∧
    front_end_kept w2 w3.
Proof.
  intros Hrun Hv w2.
  destruct (refresh_apps_returns w2) as (w3 & Hrefresh & Hkept).
  exists w3. split; [|done].
  unfold GUI.connect, get_world. unfold mbind at 1, M_bind at 1.
  unfold mbind at 1, M_bind at 1. rewrite Hrun.
  unfold mbind at 1, M_bind at 1. rewrite Hv.
  etrans; [apply (bind_run _ _ w1 () w3); exact Hrefresh | reflexivity].
Qed.

End ConnectionProperties.

Section ConnectOutcomes.

Import Examples Scenarios.

(** The bridge on a connection, by what the wait and the device do. *)
Lemma run_async_connect ip key w :
  loop (gui w) = true →
  let c := ConnectToTv ip key in
  let cl := WebOsClient ip key in
  let sent := add_log (DeviceIO cl ReqConnect) (with_client cl (add_log (Submitted c) w)) in
  let made k :=
    set_gui (set_remote {| client := Some cl; connected := true; tv_ip := ip;
                           client_key := k |} (gui w)) sent in
  let failed (w1 : World) :=
    set_gui (GUI.set_status_bar "Error: " (gui w1)) w1 in
  GUI.run_async c w =
    match wait_elapses (env w) (log w) c,
          answer_connect (env w) (log w ++ [Submitted c]) cl with
    | false, inr k => (inr (VBool true), made k)
    | false, inl _ => (inr (VBool false), sent)
    | true, inr k => (inr VNone, failed (made k))
    | true, inl _ => (inr VNone, failed sent)
    end.
Proof.
  intros Hloop c cl sent made failed. rewrite run_async_run by done.
  unfold delivery, worked. subst c. cbn [Remote.coroutine].
  rewrite connect_to_tv_run.
  change (answer_connect (env (add_log (Submitted (ConnectToTv ip key)) w))
            (log (add_log (Submitted (ConnectToTv ip key)) w)) (WebOsClient ip key))
    with (answer_connect (env w) (log w ++ [Submitted (ConnectToTv ip key)]) cl).
  by destruct (wait_elapses _ _ _), (answer_connect _ _ _).
Qed.

Lemma connect_tv_connecting w :
  let w0 := set_gui (GUI.set_connect_btn false
                       (GUI.set_status_bar "Connecting..." (gui w))) w in
  loop (gui w0) = loop (gui w) ∧ env w0 = env w ∧ log w0 = log w ∧
  saved_client_key (gui w0) = saved_client_key (gui w).
Proof. done. Qed.

(** A connection that the device accepts in time: the session is
    connected to the address without its surrounding white space, the label
    says so, the button is enabled again, and the file, when it can be
    written, holds the text of the entry as it is and the key of the
    device. *)
Theorem connect_tv_success w k :
  let ip := PyStr.strip (ip_entry (gui w)) in
  let key := default None (saved_client_key (gui w)) in
  let c := ConnectToTv ip key in
  let cl := WebOsClient ip key in
  loop (gui w) = true →
  ip ≠ "" →
  wait_elapses (env w) (log w) c = false →
  answer_connect (env w) (log w ++ [Submitted c]) cl = inr k →
  ∃ w',
    GUI.connect_tv w = (inr (), w') ∧
    session w' =
      {| client := Some cl; connected := true; tv_ip := ip; client_key := k |} ∧
    status_label (gui w') = "Connected to " +:+ ip ∧
    connect_btn_enabled (gui w') = true ∧
    saved_client_key (gui w') = saved_client_key (gui w) ∧
    config_file w' =
      if fs_writable w
      then Some {| cfg_tv_ip := Some (ip_entry (gui w)); cfg_client_key := k |}
      else config_file w.
Proof.
  intros ip key c cl Hloop Hip Hwait Hans. subst c cl.
  rewrite connect_tv_run by done. fold ip.
  set (w0 := set_gui (GUI.set_connect_btn false
                        (GUI.set_status_bar "Connecting..." (gui w))) w).
  pose proof (run_async_connect ip key w0 Hloop) as Hrun. cbv zeta in Hrun.
  change (wait_elapses (env w0) (log w0) (ConnectToTv ip key))
    with (wait_elapses (env w) (log w) (ConnectToTv ip key)) in Hrun.
  change (answer_connect (env w0) (log w0 ++ [Submitted (ConnectToTv ip key)])
            (WebOsClient ip key))
    with (answer_connect (env w) (log w ++ [Submitted (ConnectToTv ip key)])
            (WebOsClient ip key)) in Hrun.
  rewrite Hwait, Hans in Hrun.
  destruct (connect_made ip w0 _ _ Hrun eq_refl) as (w3 & Hconnect & Hkept).
  eexists. split; [exact Hconnect|].
  destruct Hkept as (Hs & _ & Hkey & _ & _ & Hlabel & Hfile & _ & _).
  unfold session in *. simpl.
  rewrite Hs, Hkey, Hlabel, Hfile. unfold GUI.save_config, modify. simpl.
  by destruct (fs_writable w).
Qed.

Lemma connect_tv_success_witness :
  let w := with_entry "  192.168.1.100 " (started tv_ok) in
  loop (gui w) = true ∧
  PyStr.strip (ip_entry (gui w)) = "192.168.1.100" ∧
  ∃ w',
    GUI.connect_tv w = (inr (), w') ∧
    session w' =
      {| client := Some the_client; connected := true; tv_ip := "192.168.1.100";
         client_key := Some "K" |} ∧
    status_label (gui w') = "Connected to 192.168.1.100" ∧
    config_file w' =
      Some {| cfg_tv_ip := Some "  192.168.1.100 "; cfg_client_key := Some "K" |}.
Proof.
  intros w. split; [reflexivity|]. split; [reflexivity|].
  destruct (connect_tv_success w (Some "K") eq_refl) as
    (w' & Hrun & Hs & Hlabel & _ & _ & Hfile); [discriminate | reflexivity..|].
  exists w'. split; [exact Hrun|]. split; [exact Hs|]. split; [exact Hlabel | exact Hfile].
Defined.

(** A connection that the device refuses: the label and the status say
    that it failed, the button is enabled again, the file is not touched,
    the list of apps is not asked for; the session has the new client and
    is otherwise as before. *)
Theorem connect_tv_refused w detail :
  let ip := PyStr.strip (ip_entry (gui w)) in
  let key := default None (saved_client_key (gui w)) in
  let c := ConnectToTv ip key in
  let cl := WebOsClient ip key in
  loop (gui w) = true →
  ip ≠ "" →
  wait_elapses (env w) (log w) c = false →
  answer_connect (env w) (log w ++ [Submitted c]) cl = inl detail →
  ∃ w',
    GUI.connect_tv w = (inr (), w') ∧
    session w' = Remote.set_client (Some cl) (session w) ∧
    status_label (gui w') = "Connection Failed" ∧
    status_bar (gui w') = "Connection failed" ∧
    connect_btn_enabled (gui w') = true ∧
    config_file w' = config_file w ∧
    log w' = log w ++ [Submitted c; DeviceIO cl ReqConnect].
Proof.
  intros ip key c cl Hloop Hip Hwait Hans. subst c cl.
  rewrite connect_tv_run by done. fold ip.
  set (w0 := set_gui (GUI.set_connect_btn false
                        (GUI.set_status_bar "Connecting..." (gui w))) w).
  pose proof (run_async_connect ip key w0 Hloop) as Hrun. cbv zeta in Hrun.
  change (wait_elapses (env w0) (log w0) (ConnectToTv ip key))
    with (wait_elapses (env w) (log w) (ConnectToTv ip key)) in Hrun.
  change (answer_connect (env w0) (log w0 ++ [Submitted (ConnectToTv ip key)])
            (WebOsClient ip key))
    with (answer_connect (env w) (log w ++ [Submitted (ConnectToTv ip key)])
            (WebOsClient ip key)) in Hrun.
  rewrite Hwait, Hans in Hrun.
  rewrite (connect_not_made ip w0 _ _ Hrun eq_refl).
  eexists. split; [done|]. simpl. repeat split; try done.
  by rewrite <- app_assoc.
Qed.

Lemma connect_tv_refused_witness :
  let w := started tv_off in
  loop (gui w) = true ∧
  ∃ w',
    GUI.connect_tv w = (inr (), w') ∧
    status_label (gui w') = "Connection Failed" ∧
    config_file w' = None ∧
    submitted (log w') = [ConnectToTv "192.168.1.100" None].
Proof.
  intros w. split; [reflexivity|].
  destruct (connect_tv_refused w "" eq_refl) as
    (w' & Hrun & _ & Hlabel & _ & _ & Hfile & Hlog); [discriminate | reflexivity..|].
  exists w'. split; [exact Hrun|]. split; [exact Hlabel|]. split; [exact Hfile|].
  by rewrite Hlog.
Defined.

(** A connection that the device accepts after the wait has run out:
    the front end reports a failure and writes no file, while the session
    is connected and holds the key the device handed out; the key is not
    saved. *)
Theorem connect_tv_late_success w k :
  let ip := PyStr.strip (ip_entry (gui w)) in
  let key := default None (saved_client_key (gui w)) in
  let c := ConnectToTv ip key in
  let cl := WebOsClient ip key in
  loop (gui w) = true →
  ip ≠ "" →
  wait_elapses (env w) (log w) c = true →
  answer_connect (env w) (log w ++ [Submitted c]) cl = inr k →
  ∃ w',
    GUI.connect_tv w = (inr (), w') ∧
    session w' =
      {| client := Some cl; connected := true; tv_ip := ip; client_key := k |} ∧
    status_label (gui w') = "Connection Failed" ∧
    status_bar (gui w') = "Connection failed" ∧
    config_file w' = config_file w ∧
    saved_client_key (gui w') = saved_client_key (gui w).
Proof.
  intros ip key c cl Hloop Hip Hwait Hans. subst c cl.
  rewrite connect_tv_run by done. fold ip.
  set (w0 := set_gui (GUI.set_connect_btn false
                        (GUI.set_status_bar "Connecting..." (gui w))) w).
  pose proof (run_async_connect ip key w0 Hloop) as Hrun. cbv zeta in Hrun.
  change (wait_elapses (env w0) (log w0) (ConnectToTv ip key))
    with (wait_elapses (env w) (log w) (ConnectToTv ip key)) in Hrun.
  change (answer_connect (env w0) (log w0 ++ [Submitted (ConnectToTv ip key)])
            (WebOsClient ip key))
    with (answer_connect (env w) (log w ++ [Submitted (ConnectToTv ip key)])
            (WebOsClient ip key)) in Hrun.
  rewrite Hwait, Hans in Hrun.
  rewrite (connect_not_made ip w0 _ _ Hrun eq_refl).
  eexists. split; [done|]. by repeat split.
Qed.

Lemma connect_tv_late_success_witness :
  let w := started tv_slow_pairing in
  loop (gui w) = true ∧
  ∃ w',
    GUI.connect_tv w = (inr (), w') ∧
    connected (session w') = true ∧
    client_key (session w') = Some "K" ∧
    status_label (gui w') = "Connection Failed" ∧
    config_file w' = None.
Proof.
  intros w. split; [reflexivity|].
  destruct (connect_tv_late_success w (Some "K") eq_refl) as
    (w' & Hrun & Hs & Hlabel & _ & Hfile & _); [discriminate | reflexivity..|].
  exists w'. split; [exact Hrun|]. rewrite Hs.
  split; [reflexivity|]. split; [reflexivity|]. split; [exact Hlabel | exact Hfile].
Defined.

End ConnectOutcomes.

(** ** The list of apps and the launchers *)

Section LauncherProperties.

Import Examples Scenarios.

(** The bridge leaves the list of apps and its selection alone. *)
Lemma run_async_listbox c w :
  apps_listbox (gui (snd (GUI.run_async c w))) = apps_listbox (gui w) ∧
  curselection (gui (snd (GUI.run_async c w))) = curselection (gui w).
Proof.
  destruct (loop (gui w)) eqn:Hloop; [|by rewrite run_async_no_loop].
  rewrite run_async_run by done. destruct (worked_step c w) as (Hg & _).
  destruct (delivery c w); simpl; by rewrite Hg.
Qed.

(** When the television lists at least one app, [refresh_apps] replaces
    the list on the screen: one line per app, its title, or its id when it
    has no title, or [Unknown]; nothing is selected, and the status counts
    the apps. *)
Theorem refresh_apps_fills_list w apps :
  fst (GUI.run_async GetApps w) = inr (VApps apps) →
  apps ≠ [] →
  ∃ w',
    GUI.refresh_apps w = (inr (), w') ∧
    apps_listbox (gui w') = GUI.listbox_title <$> apps ∧
    length (apps_listbox (gui w')) = length apps ∧
    curselection (gui w') = [] ∧
    status_bar (gui w') = "Found " +:+ pretty (length apps) +:+ " apps".
Proof.
  intros Hget Hne. unfold GUI.refresh_apps, mbind, M_bind.
  destruct (GUI.run_async GetApps w) as [r w1]. simpl in Hget. subst r.
  destruct apps as [|app apps]; [done|].
  eexists. split; [reflexivity|]. simpl. repeat split. by rewrite length_fmap.
Qed.

Lemma refresh_apps_fills_list_witness :
  let w := after_connect tv_untitled in
  fst (GUI.run_async GetApps w) = inr (VApps [untitled; prime]) ∧
  ∃ w',
    GUI.refresh_apps w = (inr (), w') ∧
    apps_listbox (gui w') = ["u"; "Amazon Prime Video"] ∧
    status_bar (gui w') = "Found 2 apps".
Proof.
  intros w. split; [reflexivity|].
  destruct (refresh_apps_fills_list w [untitled; prime] eq_refl)
    as (w' & Hrun & Hlist & _ & _ & Hstatus); [discriminate|].
  exists w'. split; [exact Hrun|]. split; [exact Hlist | exact Hstatus].
Defined.

(** When the television lists no app, or the list could not be had,
    [refresh_apps] leaves the list on the screen and its selection as they
    were: the lines of an earlier answer stay. *)
Theorem refresh_apps_keeps_old_list w v :
  fst (GUI.run_async GetApps w) = inr v →
  truthy v = false →
  GUI.refresh_apps w = (inr (), snd (GUI.run_async GetApps w)) ∧
  apps_listbox (gui (snd (GUI.refresh_apps w))) = apps_listbox (gui w) ∧
  curselection (gui (snd (GUI.refresh_apps w))) = curselection (gui w).
Proof.
  intros Hget Hv. pose proof (run_async_listbox GetApps w) as Hkept.
  unfold GUI.refresh_apps, mbind, M_bind.
  destruct (GUI.run_async GetApps w) as [r w1]. simpl in *. subst r.
  by rewrite Hv.
Qed.

Lemma refresh_apps_keeps_old_list_witness :
  let w := click 1 (after_connect tv_prime) in
  let w_off := set_gui (gui w) (started tv_off) in
  fst (GUI.run_async GetApps w_off) = inr VNone ∧
  apps_listbox (gui (snd (GUI.refresh_apps w_off))) = ["News"; "Amazon Prime Video"] ∧
  curselection (gui (snd (GUI.refresh_apps w_off))) = [1].
Proof.
  intros w w_off. split; [reflexivity|].
  exact (proj2 (refresh_apps_keeps_old_list w_off VNone eq_refl eq_refl)).
Defined.

Lemma try_espn_run ids w :
  loop (gui w) = true →
  ∃ w' evs,
    GUI.try_espn ids w = (inr (), w') ∧
    loop (gui w') = true ∧
    log w' = log w ++ evs ∧
    caller_view evs = attempts ids.
Proof.
  revert w. induction ids as [|espn_id ids IH]; intros w Hloop.
  - exists w, []. by rewrite app_nil_r.
  - destruct (run_async_returns (LaunchApp espn_id) w Hloop)
      as (v & w1 & evs1 & Hrun & Hl1 & _ & Hlog1 & Hio1).
    set (w2 := add_log (Slept 500)
                 (set_gui (GUI.set_status_bar ("Trying ESPN: " +:+ espn_id) (gui w1)) w1)).
    destruct (IH w2) as (w' & evs & Hrest & Hl' & Hlog & Hview); [done|].
    exists w', (Submitted (LaunchApp espn_id) :: evs1 ++ Slept 500 :: evs).
    repeat split; try done.
    + cbn [GUI.try_espn]. unfold try_except, mbind, M_bind. rewrite Hrun. simpl.
      exact Hrest.
    + rewrite Hlog. subst w2. simpl. rewrite Hlog1.
      repeat (rewrite <- app_assoc; simpl). done.
    + change (Submitted (LaunchApp espn_id) :: evs1 ++ Slept 500 :: evs)
        with ([Submitted (LaunchApp espn_id)] ++ evs1 ++ [Slept 500] ++ evs).
      rewrite !caller_view_app, (caller_view_io evs1 Hio1), Hview. done.
Qed.

(** [launch_espn] hands its four identifiers to the worker one after the
    other, each followed by the pause, whatever the television answers, and
    never raises. *)
Theorem launch_espn_tries_all_four w :
  loop (gui w) = true →
  ∃ w' evs,
    GUI.launch_espn w = (inr (), w') ∧
    log w' = log w ++ evs ∧
    caller_view evs = espn_attempts ∧
    launch_ids evs = ["espn"; "com.espn.webostv"; "com.espn.app"; "ESPN"].
Proof.
  intros Hloop.
  destruct (try_espn_run ["espn"; "com.espn.webostv"; "com.espn.app"; "ESPN"] w Hloop)
    as (w' & evs & Hrun & _ & Hlog & Hview).
  exists w', evs. repeat split; try done.
  by rewrite <- launch_ids_caller_view, Hview, launch_ids_attempts.
Qed.

Lemma launch_espn_tries_all_four_witness :
  let w := after_connect tv_stubborn in
  loop (gui w) = true ∧
  ∃ w' evs,
    GUI.launch_espn w = (inr (), w') ∧
    log w' = log w ++ evs ∧
    launch_ids evs = ["espn"; "com.espn.webostv"; "com.espn.app"; "ESPN"].
Proof.
  intros w. split; [reflexivity|].
  destruct (launch_espn_tries_all_four w eq_refl) as (w' & evs & Hrun & Hlog & _ & Hids).
  exists w', evs. split; [exact Hrun|]. split; [exact Hlog | exact Hids].
Defined.

Lemma try_ids_total app_name ids w :
  ∃ w', GUI.try_ids app_name ids w = (inr (), w').
Proof.
  revert w. induction ids as [|app_id ids IH]; intros w; [by eexists|].
  destruct (run_async_total (LaunchApp app_id) w) as (v & w1 & Hrun).
  cbn [GUI.try_ids]. unfold try_except, mbind, M_bind. rewrite Hrun. simpl.
  apply IH.
Qed.

Lemma search_apps_total app_name apps w :
  ∃ b w', GUI.search_apps app_name apps w = (inr b, w').
Proof.
  induction apps as [|app apps IH]; [by eexists _, _|].
  cbn [GUI.search_apps]. destruct (GUI.name_matches _ _); [|exact IH].
  destruct (run_async_total (LaunchApp (dict_get "id" "" app)) w) as (v & w1 & Hrun).
  unfold mbind, M_bind. rewrite Hrun. by eexists _, _.
Qed.

(** [launch_app_smart] never raises, whatever the name, the list of apps
    and the answers of the television: what goes wrong ends in the status
    bar. *)
Theorem launch_app_smart_never_raises app_name w :
  ∃ w', GUI.launch_app_smart app_name w = (inr (), w').
Proof.
  destruct (run_async_total GetApps w) as (v & w1 & Hrun).
  unfold GUI.launch_app_smart, GUI.smart_launcher, try_except.
  unfold mbind at 1, M_bind at 1. rewrite Hrun.
  assert (∀ w2, ∃ w', (match GUI.fallback_ids !! app_name with
                       | Some ids => GUI.try_ids app_name ids
                       | None => GUI.update_status ("Could not find " +:+ app_name)
                       end) w2 = (inr (), w')) as Hfallback.
  { intros w2. destruct (GUI.fallback_ids !! app_name); [apply try_ids_total | by eexists]. }
  unfold mbind, M_bind.
  destruct (truthy v) eqn:Hv.
  - destruct v as [|b|apps]; [done | by eexists |].
    destruct (search_apps_total app_name apps w1) as (b & w2 & Hsearch).
    rewrite Hsearch. destruct b; [by eexists|].
    destruct (Hfallback w2) as [w' Hf]. exists w'. by rewrite Hf.
  - destruct (Hfallback w1) as [w' Hf]. exists w'. unfold mret, M_ret. by rewrite Hf.
Qed.

(** An entry without a title, or with an empty one, matches every name. *)
Lemma untitled_matches app_name (app : App) :
  dict_get "title" "" app = "" → entry_matches app_name app.
Proof.
  intros Htitle. right. rewrite Htitle. by exists "", (PyStr.lower app_name).
Qed.

(** An entry of the list of apps that has no title, or an empty one,
    matches whatever is asked for: when no entry before it matches, it is
    the entry launched, under its id. *)
Theorem untitled_entry_is_launched app_name pre app post w :
  fst (GUI.run_async GetApps w) = inr (VApps (pre ++ app :: post)) →
  Forall (λ a, ¬ entry_matches app_name a) pre →
  dict_get "title" "" app = "" →
  ∃ w',
    GUI.launch_app_smart app_name w = (inr (), w') ∧
    launch_ids (log w') = launch_ids (log w) ++ [dict_get "id" "" app].
Proof.
  intros Hget Hpre Htitle.
  destruct (smart_launcher_catalog app_name pre app post w Hget Hpre
              (untitled_matches app_name app Htitle))
    as (w' & evs & Hrun & Hlog & Hview & _).
  exists w'. split; [done|].
  by rewrite Hlog, launch_ids_app, <- (launch_ids_caller_view evs), Hview.
Qed.

Lemma untitled_entry_is_launched_witness :
  let w := after_connect tv_untitled in
  fst (GUI.run_async GetApps w) = inr (VApps ([] ++ untitled :: [prime])) ∧
  dict_get "title" "" untitled = "" ∧
  ∃ w',
    GUI.launch_app_smart "Prime Video" w = (inr (), w') ∧
    launch_ids (log w') = launch_ids (log w) ++ ["u"].
Proof.
  intros w. split; [reflexivity|]. split; [reflexivity|].
  exact (untitled_entry_is_launched "Prime Video" [] untitled [prime] w
           eq_refl (Forall_nil_2 _) eq_refl).
Defined.




(** A double click on the list of apps never changes anything and never
    launches anything; it returns without an error exactly when no item is
    selected. *)
Theorem double_click_changes_nothing w :
  snd (GUI.launch_selected_app w) = w ∧
  (fst (GUI.launch_selected_app w) = inr () ↔ curselection (gui w) = []).
Proof.
  unfold GUI.launch_selected_app, get_world, mbind, M_bind.
  destruct (curselection (gui w)) as [|i rest]; [done|].
  rewrite getattr_launch_app. by split.
Qed.

Lemma lower_char_idempotent c :
  PyStr.lower_char (PyStr.lower_char c) = PyStr.lower_char c.
Proof. by destruct c as [[] [] [] [] [] [] [] []]. Qed.

Lemma lower_idempotent s : PyStr.lower (PyStr.lower s) = PyStr.lower s.
Proof.
  induction s as [|c s IH]; [done|]. simpl. by rewrite lower_char_idempotent, IH.
Qed.

(** The search in the list of apps ignores the case of the name: a name
    and its lower-case form match the same entries.  The table of
    identifiers does not: none of its names is found under its lower-case
    form. *)
Theorem case_matters_in_the_table_only app_name (app : App) :
  (entry_matches (PyStr.lower app_name) app ↔ entry_matches app_name app) ∧
  (app_name ∈ canonical_names → GUI.fallback_ids !! PyStr.lower app_name = None).
Proof.
  split.
  - unfold entry_matches. by rewrite lower_idempotent.
  - intros Hin. unfold canonical_names in Hin.
    repeat (apply elem_of_cons in Hin as [->|Hin]; [reflexivity|]).
    by apply elem_of_nil in Hin.
Qed.

Lemma case_matters_in_the_table_only_witness :
  "ESPN" ∈ canonical_names ∧
  GUI.fallback_ids !! PyStr.lower "ESPN" = None.
Proof.
  assert ("ESPN" ∈ canonical_names) as Hin.
  { unfold canonical_names. repeat (apply elem_of_cons; first [by left | right]). }
  split; [exact Hin|].
  exact (proj2 (case_matters_in_the_table_only "ESPN" ∅) Hin).
Defined.

End LauncherProperties.

(** ** What stays through a run *)

Section RunInvariants.

Import Examples Scenarios.

Lemma steady_step_refl strict w : steady_step strict w w.
Proof. by repeat split. Qed.

Lemma steady_step_trans strict w1 w2 w3 :
  steady_step strict w1 w2 → steady_step strict w2 w3 → steady_step strict w1 w3.
Proof.
  intros (?&?&?&?&?&H12) (?&?&?&?&?&H23).
  repeat split; try congruence;
    match goal with
    | Hs : strict = true |- _ => destruct (H12 Hs), (H23 Hs); congruence
    end.
Qed.

Lemma steady_step_weaken strict w w' :
  steady_step true w w' → steady_step strict w w'.
Proof. intros (?&?&?&?&?&H). repeat split; try done; by destruct H. Qed.

Lemma steady_weaken {A} strict (m : M A) : steady true m → steady strict m.
Proof. intros Hm w. apply steady_step_weaken, Hm. Qed.

Lemma steady_ret {A} strict (x : A) : steady strict (mret x).
Proof. intros w. apply steady_step_refl. Qed.

Lemma steady_raise {A} strict e : steady strict (raise e : M A).
Proof. intros w. apply steady_step_refl. Qed.

Lemma steady_bind {A B} strict (m : M A) (k : A → M B) :
  steady strict m → (∀ x, steady strict (k x)) → steady strict (m ≫= k).
Proof.
  intros Hm Hk w. unfold mbind, M_bind. pose proof (Hm w) as H1.
  destruct (m w) as [[e|x] w1]; simpl in *; [done|].
  eapply steady_step_trans; [exact H1 | apply Hk].
Qed.

Lemma steady_try_except {A} strict (body : M A) handler :
  steady strict body → (∀ e, steady strict (handler e)) →
  steady strict (try_except body handler).
Proof.
  intros Hb Hh w. unfold try_except. pose proof (Hb w) as H1.
  destruct (body w) as [[e|x] w1]; simpl in *; [|done].
  eapply steady_step_trans; [exact H1 | apply Hh].
Qed.

Lemma steady_modify_gui strict f :
  (∀ g, remote (f g) = remote g ∧ saved_client_key (f g) = saved_client_key g ∧
        loop (f g) = loop g ∧ ip_entry (f g) = ip_entry g) →
  steady strict (modify_gui f).
Proof.
  intros Hf w. destruct (Hf (gui w)) as (?&?&?&?).
  unfold steady_step, session. simpl. by repeat split.
Qed.

Lemma steady_emit strict e : steady strict (emit e).
Proof. intros w. by repeat split. Qed.

Lemma steady_save_config : steady false GUI.save_config.
Proof.
  intros w. unfold GUI.save_config, modify. simpl.
  destruct (fs_writable w) eqn:Hw; repeat split; simpl; done.
Qed.

Lemma steady_run_async strict c :
  (strict = true → plain_operation c = true) →
  steady strict (GUI.run_async c).
Proof.
  intros Hc w. destruct (loop (gui w)) eqn:Hloop;
    [|rewrite run_async_no_loop by done; apply steady_step_refl].
  assert (steady_step strict w (worked c w)) as Hworked.
  { destruct (worked_step c w) as (Hg & He & Hf & Hfs & _).
    unfold steady_step. rewrite Hg, He, Hfs. repeat split; try done;
      first [ by (unfold worked; rewrite plain_session by auto) | by rewrite Hf ]. }
  rewrite run_async_run by done.
  destruct (delivery c w); [|done].
  eapply steady_step_trans; [exact Hworked|].
  unfold steady_step, session. simpl. by repeat split.
Qed.

Local Ltac steady_tac :=
  repeat first
    [ apply steady_ret | apply steady_raise | apply steady_emit
    | by apply steady_run_async
    | by apply steady_modify_gui
    | apply steady_try_except; [|intros ?]
    | apply steady_bind; [|intros ?]
    | match goal with |- steady _ (if ?b then _ else _) => destruct b end
    | match goal with |- steady _ (match ?v with _ => _ end) => destruct v end ].

Lemma steady_try_ids app_name ids : steady true (GUI.try_ids app_name ids).
Proof.
  induction ids as [|app_id ids IH]; cbn [GUI.try_ids];
    unfold GUI.update_status, GUI.sleep_half_second; steady_tac. exact IH.
Qed.

Lemma steady_try_espn ids : steady true (GUI.try_espn ids).
Proof.
  induction ids as [|espn_id ids IH]; cbn [GUI.try_espn];
    unfold GUI.update_status, GUI.sleep_half_second; steady_tac. exact IH.
Qed.

Lemma steady_search_apps app_name apps : steady true (GUI.search_apps app_name apps).
Proof.
  induction apps as [|app apps IH]; cbn [GUI.search_apps]; [apply steady_ret|].
  destruct (GUI.name_matches _ _); [|exact IH].
  unfold GUI.update_status. steady_tac.
Qed.

Lemma steady_smart_launcher app_name : steady true (GUI.smart_launcher app_name).
Proof.
  unfold GUI.smart_launcher, GUI.update_status.
  apply steady_try_except; [|intros e; by apply steady_modify_gui].
  apply steady_bind; [by apply steady_run_async|]. intros apps.
  apply steady_bind.
  - destruct (truthy apps); [|apply steady_ret].
    destruct apps; [apply steady_raise.. | apply steady_search_apps].
  - intros [|]; [apply steady_ret|].
    destruct (GUI.fallback_ids !! app_name);
      [apply steady_try_ids | by apply steady_modify_gui].
Qed.

Lemma steady_refresh_apps : steady true GUI.refresh_apps.
Proof. unfold GUI.refresh_apps, GUI.update_status. steady_tac. Qed.

Lemma steady_handler c message :
  plain_operation c = true →
  steady true (GUI.run_async c;; GUI.update_status message).
Proof. intros Hc. unfold GUI.update_status. steady_tac. Qed.

Lemma steady_button n :
  steady true (match button_handlers !! n with
               | Some (handler, _, _) => handler
               | None => mret ()
               end).
Proof.
  unfold button_handlers.
  do 15 (destruct n as [|n]; [by apply steady_handler|]).
  apply steady_ret.
Qed.

Lemma steady_launch_selected_app : steady true GUI.launch_selected_app.
Proof.
  intros w. unfold GUI.launch_selected_app, get_world, mbind, M_bind.
  destruct (curselection (gui w)); [apply steady_step_refl|].
  rewrite getattr_launch_app. apply steady_step_refl.
Qed.

Lemma steady_get_world {A} strict (k : World → M A) :
  (∀ w0, steady strict (k w0)) → steady strict (get_world ≫= k).
Proof. intros Hk w. unfold mbind, M_bind, get_world. apply Hk. Qed.

Lemma steady_connect ip : steady false (GUI.connect ip).
Proof.
  unfold GUI.connect, GUI.update_status.
  apply steady_get_world. intros w0. cbv zeta.
  apply steady_bind; [by apply steady_run_async|]. intros success.
  apply steady_bind; [|intros ?; by apply steady_modify_gui].
  destruct (truthy success); steady_tac;
    first [apply steady_save_config | apply steady_weaken, steady_refresh_apps].
Qed.

Lemma steady_connect_tv : steady false GUI.connect_tv.
Proof.
  unfold GUI.connect_tv, GUI.update_status.
  apply steady_get_world. intros w0. cbv zeta.
  destruct (PyStr.truthy _); [|apply steady_ret].
  apply steady_bind; [by apply steady_modify_gui|]. intros _.
  apply steady_bind; [by apply steady_modify_gui|]. intros _.
  apply steady_connect.
Qed.

Lemma steady_perform a :
  steady (if a is ClickConnect then false else true) (perform a).
Proof.
  destruct a; simpl.
  - apply steady_connect_tv.
  - apply steady_smart_launcher.
  - apply steady_refresh_apps.
  - destruct yes; [by apply steady_handler | apply steady_ret].
  - apply steady_button.
  - apply steady_launch_selected_app.
Qed.

(** Whatever the user does with the window, the key read at start-up,
    the loop of the worker and the text of the address entry stay as they
    are.  As long as [Connect to TV] is not among the actions, the session
    and the file stay as well: no other button connects, disconnects,
    changes the key or writes the file. *)
Theorem run_keeps_start_up_key actions w :
  let w' := perform_all_actions actions w in
  saved_client_key (gui w') = saved_client_key (gui w) ∧
  loop (gui w') = loop (gui w) ∧
  ip_entry (gui w') = ip_entry (gui w) ∧
  (ClickConnect ∉ actions →
   session w' = session w ∧ config_file w' = config_file w).
Proof.
  assert (∀ strict, (strict = true → ClickConnect ∉ actions) →
          steady_step strict w (perform_all_actions actions w)) as Hall.
  { intros strict. revert w. induction actions as [|a actions IH]; intros w Hs.
    - apply steady_step_refl.
    - simpl. eapply steady_step_trans; [|apply IH].
      + pose proof (steady_perform a w) as Ha.
        destruct strict;
          [|destruct a; first [exact Ha | apply steady_step_weaken; exact Ha]].
        destruct a; try exact Ha. specialize (Hs eq_refl). set_solver.
      + intros Hstrict. specialize (Hs Hstrict). set_solver. }
  intros w'. subst w'. split; [|split; [|split]].
  - by destruct (Hall false) as (?&_).
  - by destruct (Hall false) as (_&?&_).
  - by destruct (Hall false) as (_&_&?&_).
  - intros Hno. destruct (Hall true) as (_&_&_&_&_&H); [done|]. by apply H.
Qed.

Lemma run_keeps_start_up_key_witness :
  let w := after_connect tv_ok in
  let actions := [ClickQuickLaunch "ESPN"; ClickPowerOff true; ClickButton 7;
                  ClickRefresh; DoubleClickApp] in
  let w' := perform_all_actions actions w in
  (ClickConnect ∉ actions) ∧
  session w' = session w ∧ config_file w' = config_file w.
Proof.
  intros w actions w'.
  assert (ClickConnect ∉ actions) as Hno.
  { unfold actions. rewrite !not_elem_of_cons. repeat split; try done.
    apply not_elem_of_nil. }
  split; [exact Hno|].
  destruct (run_keeps_start_up_key actions w) as (_ & _ & _ & H).
  exact (H Hno).
Defined.

End RunInvariants.
